(** * ub-data: the concurrent harvesting engine

    A shallow embedding of the two harvesters of the repository:
    - [fetch_publications.py]: the OAI-PMH harvester (retry policy
      [fetch_records], extractor [extract_records], chained-mode engine
      [harvest_records_async]);
    - [fetch_faculties.py]: the paginated HTML scraper (scope discovery
      [get_total_pages], unit [fetch_and_parse_page], finite-mode main
      script with its ETA display).

    Python exceptions are values of [exn] carried by [result]; the network,
    the XML/HTML parsing libraries and the asyncio scheduler are parameters
    of the model; sleeping and issuing requests are recorded in traces. *)

From Stdlib Require Import ZArith List String Bool Lia QArith Qround Arith.
From Stdlib Require Import Permutation.
Import ListNotations.

Local Open Scope string_scope.
Local Open Scope list_scope.
Local Open Scope Z_scope.

(** ** Exceptions *)

Module Py.

(** The exception classes that the two scripts distinguish in their
    [except] clauses, and the ones the libraries raise. *)
Inductive exn : Type :=
| AsyncioTimeoutError                      (* asyncio.TimeoutError *)
| ClientResponseError (status : Z)         (* aiohttp, raise_for_status *)
| ClientConnectionError                    (* aiohttp, network failure *)
| RequestsTimeout                          (* requests.exceptions.Timeout *)
| RequestsHTTPError (status : Z)           (* requests, raise_for_status *)
| RequestsConnectionError                  (* requests, network failure *)
| XMLSyntaxError                           (* lxml.etree *)
| ParserRejectedMarkup                     (* bs4 *)
| ZeroDivisionError
| OtherException (msg : string).

Inductive result (A : Type) : Type :=
| Ret (a : A)
| Raise (e : exn).
Arguments Ret {A} a.
Arguments Raise {A} e.

Definition bind {A B} (m : result A) (k : A -> result B) : result B :=
  match m with
  | Ret a => k a
  | Raise e => Raise e
  end.

(** [try: body except Exception as e: handler e] *)
Definition try_except {A} (body : result A) (handler : exn -> result A)
  : result A :=
  match body with
  | Ret a => Ret a
  | Raise e => handler e
  end.

(** A [for] loop whose body may raise, collecting one value per element. *)
Fixpoint mapM {A B} (f : A -> result B) (l : list A) : result (list B) :=
  match l with
  | [] => Ret []
  | a :: l' => bind (f a) (fun b => bind (mapM f l') (fun bs => Ret (b :: bs)))
  end.

(** A [for] loop whose body may raise, threading an accumulator. *)
Fixpoint foldM {A B} (f : B -> A -> result B) (l : list A) (b : B)
  : result B :=
  match l with
  | [] => Ret b
  | a :: l' => bind (f b a) (fun b' => foldM f l' b')
  end.

Definition raises {A} (m : result A) : Prop := exists e, m = Raise e.

(** [isinstance(e, asyncio.TimeoutError)] *)
Definition is_asyncio_timeout (e : exn) : bool :=
  match e with AsyncioTimeoutError => true | _ => false end.

(** [isinstance(e, requests.exceptions.Timeout)] *)
Definition is_requests_timeout (e : exn) : bool :=
  match e with RequestsTimeout => true | _ => false end.

(** [isinstance(e, requests.exceptions.RequestException)] *)
Definition is_request_exception (e : exn) : bool :=
  match e with
  | RequestsTimeout | RequestsHTTPError _ | RequestsConnectionError => true
  | _ => false
  end.

(** Truthiness of a [str] and of an [Optional[str]]. *)
Definition truthy_str (s : string) : bool := negb (String.eqb s EmptyString).

Definition truthy (o : option string) : bool :=
  match o with
  | Some s => truthy_str s
  | None => false
  end.

End Py.
Import Py.

Declare Scope py_scope.
Notation "x <- m ;; k" := (bind m (fun x => k))
  (at level 61, m at next level, right associativity) : py_scope.
Notation "m ;;; k" := (bind m (fun _ => k))
  (at level 61, right associativity) : py_scope.
Local Open Scope py_scope.

(** ** fetch_publications.py: the retry policy [fetch_records] *)

Module Retry.

(** What [session.get] hands back once the status line has arrived:
    the status code and the outcome of [await response.text()]. *)
Record response : Type := mkResponse {
  status : Z;
  text : result string
}.

(** Observable effects of one call of [fetch_records]. *)
Inductive io : Type :=
| Get (i : Z)          (* the request of loop index [i] *)
| Sleep (w : Z).       (* [await asyncio.sleep(w)] *)

Definition sleeps (tr : list io) : list Z :=
  flat_map (fun ev => match ev with Sleep w => [w] | Get _ => [] end) tr.

Definition attempts (tr : list io) : nat :=
  List.length
    (filter (fun ev => match ev with Get _ => true | Sleep _ => false end) tr).

(** [min(2 ** i, 30)] *)
Definition wait_time (i : Z) : Z := Z.min (2 ^ i) 30.

(** aiohttp's [response.raise_for_status()]: raises when [status >= 400]. *)
Definition raise_for_status (r : response) : result unit :=
  if 400 <=? status r then Raise (ClientResponseError (status r)) else Ret tt.

(** How one iteration of the [for] loop ends. *)
Inductive ctl : Type :=
| Return (r : option string)
| Next.

(** The body of the [for] loop at index [i], given what the request did. *)
Definition attempt (retry_count i : Z) (got : result response)
  : list io * ctl :=
  let body : result (list io * ctl) :=
    response <- got ;;
    if status response =? 503 then
      Ret ([Sleep (wait_time i)], Next)
    else
      raise_for_status response ;;;
      body <- text response ;;
      Ret ([], Return (Some body)) in
  match body with
  | Ret out => out
  | Raise e =>
      if is_asyncio_timeout e then ([Sleep (wait_time i)], Next)
      else if i <? retry_count - 1 then ([Sleep (wait_time i)], Next)
      else ([], Return None)
  end.

(** [for i in range(retry_count)], with [n] iterations left from index [i];
    falling out of the loop returns [None]. *)
Fixpoint fetch_loop (session_get : nat -> result response) (retry_count : Z)
    (n i : nat) : option string * list io :=
  match n with
  | O => (None, [])
  | S n' =>
      let '(tr, c) := attempt retry_count (Z.of_nat i) (session_get i) in
      match c with
      | Return r => (r, Get (Z.of_nat i) :: tr)
      | Next =>
          let '(r, tr') := fetch_loop session_get retry_count n' (S i) in
          (r, Get (Z.of_nat i) :: tr ++ tr')
      end
  end.

Definition fetch_records (session_get : nat -> result response)
    (retry_count : Z) : option string * list io :=
  fetch_loop session_get retry_count (Z.to_nat retry_count) 0.

(** Classification of one attempt, seen from the server side. *)
Definition succeeds (got : result response) : option string :=
  match got with
  | Ret r =>
      if status r =? 503 then None
      else if 400 <=? status r then None
      else match text r with Ret body => Some body | Raise _ => None end
  | Raise _ => None
  end.

(** The spec's transient failures: timeout, busy (503), network error. *)
Definition transient (got : result response) : bool :=
  match got with
  | Ret r => status r =? 503
  | Raise AsyncioTimeoutError => true
  | Raise ClientConnectionError => true
  | Raise _ => false
  end.

(** An HTTP client-error status. *)
Definition client_error (got : result response) : bool :=
  match got with
  | Ret r => (400 <=? status r) && (status r <? 500)
  | Raise _ => false
  end.

End Retry.

(** ** Python strings: [str.strip] *)

Module Str.

(** ASCII white space as [str.isspace] sees it.  Python's [str.strip]
    also removes the white space outside ASCII (U+0085, U+00A0, U+2003 and
    the like), which this model of text does not represent. *)
Definition is_space (c : Ascii.ascii) : bool :=
  let n := Ascii.nat_of_ascii c in
  ((9 <=? n) && (n <=? 13) || (28 <=? n) && (n <=? 32))%nat.

Fixpoint lstrip (s : string) : string :=
  match s with
  | EmptyString => EmptyString
  | String c s' => if is_space c then lstrip s' else s
  end.

Fixpoint rstrip (s : string) : string :=
  match s with
  | EmptyString => EmptyString
  | String c s' =>
      match rstrip s' with
      | EmptyString => if is_space c then EmptyString else String c EmptyString
      | t => String c t
      end
  end.

Definition strip (s : string) : string := rstrip (lstrip s).

Definition newline : string := String (Ascii.ascii_of_nat 10) EmptyString.

End Str.

(** ** fetch_publications.py: the extractor [extract_records] *)

Module Extract.

(** A field of a record: a single text (possibly [None]) or, for a repeated
    Dublin Core element, the list of its texts. *)
Inductive value : Type :=
| Single (s : option string)
| Many (l : list (option string)).

(** [record_data]: a Python dict, kept in insertion order. *)
Definition record_data : Type := list (string * value).

Fixpoint dict_get (k : string) (d : record_data) : option value :=
  match d with
  | [] => None
  | (k', v) :: d' => if String.eqb k k' then Some v else dict_get k d'
  end.

Fixpoint dict_set (k : string) (v : value) (d : record_data) : record_data :=
  match d with
  | [] => [(k, v)]
  | (k', v') :: d' =>
      if String.eqb k k' then (k', v) :: d' else (k', v') :: dict_set k v d'
  end.

(** The part of lxml that [extract_records] calls: each call may raise. *)
Class Lxml : Type := {
  element : Type;
  (** [etree.fromstring(xml_content.encode('utf-8') ...)] *)
  fromstring : string -> result element;
  (** [node.xpath(query, namespaces=namespaces)] selecting elements *)
  xpath : string -> element -> result (list element);
  (** the same for a query ending in [text()] *)
  xpath_text : string -> element -> result (list string);
  (** [etree.QName(element).localname] *)
  localname : element -> result string;
  (** [element.text] *)
  element_text : element -> option string
}.

Section Extractor.
Context {lxml : Lxml}.

(** Lines 43-51: merging one Dublin Core element into [record_data]. *)
Definition add_element (record_data : record_data) (el : element)
  : result Extract.record_data :=
  tag <- localname el ;;
  match dict_get tag record_data with
  | Some (Many l) => Ret (dict_set tag (Many (l ++ [element_text el])) record_data)
  | Some (Single s) => Ret (dict_set tag (Many [s; element_text el]) record_data)
  | None => Ret (dict_set tag (Single (element_text el)) record_data)
  end.

(** Lines 32-53: one [oai:record]. *)
Definition extract_record (record : element) : result record_data :=
  let record_data : Extract.record_data := [] in
  identifier <- xpath_text "./oai:header/oai:identifier/text()" record ;;
  let record_data :=
    match identifier with
    | i :: _ => dict_set "identifier" (Single (Some i)) record_data
    | [] => record_data
    end in
  datestamp <- xpath_text "./oai:header/oai:datestamp/text()" record ;;
  let record_data :=
    match datestamp with
    | d :: _ => dict_set "datestamp" (Single (Some d)) record_data
    | [] => record_data
    end in
  elements <- xpath ".//oai_dc:dc/*" record ;;
  foldM add_element elements record_data.

(** Lines 56-57: the resumption token, [None] when absent or blank. *)
Definition token_of (resumption_tokens : list string) : option string :=
  match resumption_tokens with
  | t :: _ => if truthy_str (Str.strip t) then Some t else None
  | [] => None
  end.

(** The [try] block, lines 28-59. *)
Definition extract_records_try (xml_content : string)
  : result (list record_data * option string) :=
  root <- fromstring xml_content ;;
  recs <- xpath "//oai:record" root ;;
  records <- mapM extract_record recs ;;
  resumption_tokens <- xpath_text "//oai:resumptionToken/text()" root ;;
  Ret (records, token_of resumption_tokens).

(** [extract_records]: the [try] block under [except Exception], whose
    handler prints and returns [[], None]. *)
Definition extract_records (xml_content : string)
  : result (list record_data * option string) :=
  try_except (extract_records_try xml_content) (fun _ => Ret ([], None)).

(** The value [extract_records] returns: that of the [try] block, or the
    handler's [[], None]. *)
Definition extract_records_value (xml_content : string)
  : list record_data * option string :=
  match extract_records_try xml_content with
  | Ret out => out
  | Raise _ => ([], None)
  end.

End Extractor.

End Extract.

(** ** fetch_publications.py: the chained-mode engine [harvest_records_async] *)

Module Harvest.
Import Retry Extract.

Definition token : Type := string.

(** An asyncio task running [fetch_records(session, token_params)]: the
    serial number of the [fetch_records] call and its resumption token. *)
Record task : Type := mkTask {
  task_id : nat;
  task_token : token
}.

(** The local variables of [harvest_records_async].  The last five fields
    are instrumentation: they record what the run did and are never read
    by the engine. *)
Record state : Type := mkState {
  all_records : list record_data;
  tasks : list task;
  resumption_tokens : list token;
  pbar : Z;                    (* records counted by the progress bar *)
  calls : nat;                 (* [fetch_records] calls started so far *)
  rounds : nat;                (* iterations of the outer [while] so far *)
  dispatched : list token;     (* tokens handed to [create_task], in order *)
  discovered : list token;     (* truthy tokens read from parsed responses *)
  high_water : nat             (* largest [len(tasks)] ever reached *)
}.

Section Engine.
Context {lxml : Lxml}.

(** [max_concurrent]; [main] passes 8 or [int(sys.argv[1])]. *)
Variable max_concurrent : Z.

(** The remote source: call number, request parameters ([None] for the
    initial [ListRecords], [Some token] afterwards), attempt index. *)
Variable session : nat -> option token -> nat -> result response.

(** The scheduler: [finished n t] tells whether task [t] is complete when
    the [asyncio.wait] of round [n] returns. *)
Variable finished : nat -> task -> bool.

(** [await fetch_records(session, params)] with the default [retry_count]. *)
Definition fetch (id : nat) (params : option token) : option string :=
  fst (fetch_records (session id params) 3).

(** [task.result()] *)
Definition task_result (t : task) : option string :=
  fetch (task_id t) (Some (task_token t)).

(** [asyncio.wait(tasks, return_when=FIRST_COMPLETED)]: the finished tasks
    and the others; when the scheduler names none, the first one is the
    one that completes. *)
Definition asyncio_wait (n : nat) (ts : list task) : list task * list task :=
  match filter (finished n) ts with
  | [] => (firstn 1 ts, skipn 1 ts)
  | done => (done, filter (fun t => negb (finished n t)) ts)
  end.

(** Lines 125-130: pop the first token and start its task. *)
Definition create_task (tok : token) (rest : list token) (st : state) : state :=
  let tasks' := tasks st ++ [mkTask (calls st) tok] in
  {| all_records := all_records st;
     tasks := tasks';
     resumption_tokens := rest;
     pbar := pbar st;
     calls := S (calls st);
     rounds := rounds st;
     dispatched := dispatched st ++ [tok];
     discovered := discovered st;
     high_water := Nat.max (high_water st) (List.length tasks') |}.

(** Line 124: [while len(tasks) < max_concurrent and resumption_tokens];
    [toks] is [resumption_tokens st]. *)
Fixpoint fill_tasks (toks : list token) (st : state) : state :=
  match toks with
  | [] => st
  | tok :: rest =>
      if Z.of_nat (List.length (tasks st)) <? max_concurrent
      then fill_tasks rest (create_task tok rest st)
      else st
  end.

(** Lines 138-144, shared with lines 155-158: merge one response.  With
    [enqueue] the new token is appended to the queue (main loop); without,
    it is discarded (the [_] of line 156). *)
Definition merge_response (enqueue : bool) (response_text : option string)
    (st : state) : state :=
  match response_text with
  | Some xml =>
      if truthy_str xml then
        let '(batch_records, next_token) := extract_records_value xml in
        {| all_records := all_records st ++ batch_records;
           tasks := tasks st;
           resumption_tokens :=
             match next_token with
             | Some t =>
                 if truthy_str t && enqueue
                 then resumption_tokens st ++ [t] else resumption_tokens st
             | None => resumption_tokens st
             end;
           pbar := pbar st + Z.of_nat (List.length batch_records);
           calls := calls st;
           rounds := rounds st;
           dispatched := dispatched st;
           discovered :=
             match next_token with
             | Some t =>
                 if truthy_str t then discovered st ++ [t] else discovered st
             | None => discovered st
             end;
           high_water := high_water st |}
      else st
  | None => st
  end.

Definition set_tasks (ts : list task) (st : state) : state :=
  {| all_records := all_records st;
     tasks := ts;
     resumption_tokens := resumption_tokens st;
     pbar := pbar st;
     calls := calls st;
     rounds := rounds st;
     dispatched := dispatched st;
     discovered := discovered st;
     high_water := high_water st |}.

(** Lines 136-147: the body of [for task in done]. *)
Definition process_done (pending : list task) (st : state) (t : task)
  : state :=
  set_tasks pending (merge_response true (task_result t) st).

Definition next_round (st : state) : state :=
  {| all_records := all_records st;
     tasks := tasks st;
     resumption_tokens := resumption_tokens st;
     pbar := pbar st;
     calls := calls st;
     rounds := S (rounds st);
     dispatched := dispatched st;
     discovered := discovered st;
     high_water := high_water st |}.

(** Lines 123-150: one iteration of [while resumption_tokens]. *)
Definition loop_body (st : state) : state :=
  let st := fill_tasks (resumption_tokens st) st in
  let st :=
    match tasks st with
    | [] => st
    | _ :: _ =>
        let '(done, pending) := asyncio_wait (rounds st) (tasks st) in
        fold_left (process_done pending) done st
    end in
  next_round st.

(** Line 122: the outer loop; [None] when [fuel] iterations do not reach
    its exit. *)
Fixpoint harvest_loop (fuel : nat) (st : state) : option state :=
  match resumption_tokens st with
  | [] => Some st
  | _ :: _ =>
      match fuel with
      | O => None
      | S fuel' => harvest_loop fuel' (loop_body st)
      end
  end.

(** The states at the head of the outer loop, as far as [fuel] reaches. *)
Fixpoint loop_heads (fuel : nat) (st : state) : list state :=
  st ::
  match resumption_tokens st with
  | [] => []
  | _ :: _ =>
      match fuel with
      | O => []
      | S fuel' => loop_heads fuel' (loop_body st)
      end
  end.

(** Lines 153-158: [asyncio.gather] over the tasks left after the loop. *)
Definition gather_remaining (st : state) : state :=
  fold_left (fun st t => merge_response false (task_result t) st)
    (tasks st) st.

(** Lines 102-119: the first batch; [None] when the initial fetch failed
    and the function returns [[]] at once. *)
Definition first_batch : option state :=
  let response_text := fetch 0 None in
  if negb (truthy response_text) then None
  else
    let '(records, resumption_token) :=
      extract_records_value
        (match response_text with Some xml => xml | None => EmptyString end) in
    Some {| all_records := records;
            tasks := [];
            resumption_tokens :=
              if truthy resumption_token
              then match resumption_token with Some t => [t] | None => [] end
              else [];
            pbar := Z.of_nat (List.length records);
            calls := 1;
            rounds := 0;
            dispatched := [];
            discovered :=
              if truthy resumption_token
              then match resumption_token with Some t => [t] | None => [] end
              else [];
            high_water := 0 |}.

(** The final state of the run: [None] when [fuel] iterations of the outer
    loop are not enough. *)
Definition harvest_run (fuel : nat) : option (option state) :=
  match first_batch with
  | None => Some None
  | Some st0 =>
      match harvest_loop fuel st0 with
      | Some st => Some (Some (gather_remaining st))
      | None => None
      end
  end.

(** [harvest_records_async(max_concurrent)]: the list it returns. *)
Definition harvest_records_async (fuel : nat) : option (list record_data) :=
  match harvest_run fuel with
  | Some (Some st) => Some (all_records st)
  | Some None => Some []
  | None => None
  end.

(** *** Vocabulary for the statements about the engine *)

(** At most one unit is in flight or waiting. *)
Definition sequential (st : state) : Prop :=
  (List.length (tasks st) + List.length (resumption_tokens st) <= 1)%nat.

(** The number of tasks has stayed within the ceiling. *)
Definition within_ceiling (st : state) : Prop :=
  Z.of_nat (List.length (tasks st)) <= Z.max 0 max_concurrent /\
  Z.of_nat (high_water st) <= Z.max 0 max_concurrent.

(** Every token read from a response has been dispatched or is queued. *)
Definition accounted (st : state) : Prop :=
  discovered st = dispatched st ++ resumption_tokens st.

(** What holds at every head of the outer loop of a run. *)
Definition run_invariant (st : state) : Prop :=
  tasks st = [] /\
  (List.length (resumption_tokens st) <= 1)%nat /\
  (high_water st <= 1)%nat /\
  accounted st /\
  within_ceiling st.

(** One batch of a token chain: the token that requests it, the payload
    the source answers with, and the records the payload holds. *)
Record batch : Type := mkBatch {
  b_token : token;
  b_payload : string;
  b_records : list record_data
}.

(** The token that a batch's payload carries: that of the next batch, or
    [last] at the end of the list. *)
Definition next_token (rest : list batch) (last : option token)
  : option token :=
  match rest with
  | b :: _ => Some (b_token b)
  | [] => last
  end.

(** The source answers the calls numbered from [id] with the batches [bs],
    each revealed by the token in the payload before it. *)
Fixpoint serves (id : nat) (bs : list batch) (last : option token) : Prop :=
  match bs with
  | [] => True
  | b :: rest =>
      truthy_str (b_token b) = true /\
      truthy_str (b_payload b) = true /\
      fetch id (Some (b_token b)) = Some (b_payload b) /\
      extract_records_value (b_payload b) =
        (b_records b, next_token rest last) /\
      serves (S id) rest last
  end.

(** The queue that a token read from a response leaves behind. *)
Definition queue_of (o : option token) : list token :=
  match o with
  | Some t => if truthy_str t then [t] else []
  | None => []
  end.

End Engine.

End Harvest.

(** ** fetch_faculties.py: the paginated scraper *)

Module Scrape.

Definition MAX_WORKERS : Z := 32.

(** A child of a tag: a [NavigableString] or a nested tag, by its name. *)
Inductive content : Type :=
| NavigableString (s : string)
| Child (name : string).

(** The part of BeautifulSoup and of [re] that the script calls.  Only the
    parser can raise; a [Tag] is always truthy. *)
Class Bs4 : Type := {
  tag : Type;
  (** [BeautifulSoup(markup, "html.parser")] *)
  BeautifulSoup : string -> result tag;
  select : string -> tag -> list tag;
  select_one : string -> tag -> option tag;
  (** [tag.get(attribute)] *)
  get : string -> tag -> option string;
  (** [tag.text] *)
  tag_text : tag -> string;
  find_parent : string -> tag -> option tag;
  contents : tag -> list content;
  (** [re.search(pattern, s)]: [group(1)] of the match, if any *)
  re_search : string -> string -> option string;
  (** [re.sub(pattern, repl, s)] *)
  re_sub : string -> string -> string -> string;
  re_escape : string -> string
}.

(** One publication: the seven keys every [item_data] dict receives. *)
Record item_data : Type := mkItem {
  id : option string;
  title : option string;
  author : option string;
  year : option string;
  resource_type : option string;
  availability : option string;
  abstract : option string
}.

(** [s if s else None] *)
Definition or_none (s : string) : option string :=
  if truthy_str s then Some s else None.

(** [int(s)] on a string of ASCII digits; [None] stands for [ValueError]. *)
Fixpoint int_digits (acc : Z) (s : string) : option Z :=
  match s with
  | EmptyString => Some acc
  | String c s' =>
      let n := Z.of_nat (Ascii.nat_of_ascii c) in
      if (48 <=? n) && (n <=? 57) then int_digits (10 * acc + (n - 48)) s'
      else None
  end.

Definition int (s : string) : option Z :=
  match s with
  | EmptyString => None
  | _ => int_digits 0 s
  end.

(** The HTTP layer of [requests]. *)
Record http_response : Type := mkHttp {
  status_code : Z;
  text : string
}.

(** [response.raise_for_status()]: raises for 4xx and 5xx. *)
Definition raise_for_status (r : http_response) : result unit :=
  if (400 <=? status_code r) && (status_code r <? 600)
  then Raise (RequestsHTTPError (status_code r)) else Ret tt.

(** The two places that call [requests.get]. *)
Inductive request : Type :=
| Probe                  (* [get_total_pages]: [&page=1] *)
| Page (page_num : Z).   (* [fetch_and_parse_page]: [&page=page_num] *)

(** The selector [a[href^=.../handle/1887/...]], with its quotes. *)
Definition id_link_selector : string :=
  let q := String (Ascii.ascii_of_nat 34) EmptyString in
  ("a[href^=" ++ q ++ "/handle/1887/" ++ q ++ "]")%string.

Section Scraper.
Context {bs4 : Bs4}.

(** The remote source. *)
Variable requests_get : request -> result http_response.

(** [time.time() - page_start_time] measured for a page. *)
Variable page_time : Z -> Q.

(** The order in which [as_completed] yields the futures: at step [k],
    with [n] futures left, the one at position [completes k mod n]. *)
Variable completes : nat -> nat.

(** Lines 86-112: author and year of one result row. *)
Definition author_year (result : tag) : option string * option string :=
  match select_one "dd.mods-name-authorrole-namepart-custom-ms" result with
  | Some author_dd =>
      let year_span :=
        select_one
          "span.mods-origininfo-encoding-w3cdtf-keyDate-yes-dateIssued-year-custom-ms"
          author_dd in
      let year_text :=
        match year_span with
        | Some y => Str.strip (tag_text y)
        | None => EmptyString
        end in
      let full_author_text := Str.strip (tag_text author_dd) in
      let author_text :=
        if truthy_str year_text then
          let author_text :=
            re_sub ("\s*" ++ re_escape year_text ++ "\s*$")%string EmptyString
              full_author_text in
          Str.strip (re_sub ";\s*$" EmptyString author_text)
        else full_author_text in
      (or_none author_text, or_none year_text)
  | None => (None, None)
  end.

(** Lines 153-159 and 162-167: the abstract taken from the [dd] itself. *)
Definition abstract_fallback (result : tag) : option string :=
  match select_one "dd.mods-abstract-ms" result with
  | Some abstract_dd_direct =>
      match select_one ".ubl-embargo" abstract_dd_direct with
      | None => Some (Str.strip (tag_text abstract_dd_direct))
      | Some _ => None
      end
  | None => None
  end.

(** Lines 131-167: the abstract of one result row. *)
Definition abstract_of (result : tag) : option string :=
  match select_one "dd.mods-abstract-ms span.toggle-wrapper span" result with
  | Some abstract_span =>
      let full_abstract_span :=
        match find_parent "span" abstract_span with
        | Some parent => select_one "span:last-of-type" parent
        | None => None
        end in
      match full_abstract_span with
      | Some span =>
          let abstract_content_parts :=
            flat_map
              (fun c =>
                 match c with
                 | NavigableString s => [Str.strip s]
                 | Child name =>
                     if String.eqb name "br" then [Str.newline] else []
                 end)
              (contents span) in
          Some (Str.strip (String.concat EmptyString abstract_content_parts))
      | None => abstract_fallback result
      end
  | None => abstract_fallback result
  end.

(** Lines 71-169: the [item_data] of one result row.  [re.search] raises
    [TypeError] when handed [None]. *)
Definition item_of (result : tag) : Py.result item_data :=
  id <-
    match select_one id_link_selector result with
    | Some id_link =>
        match get "href" id_link with
        | Some href => Ret (re_search "/1887/(\d+)" href)
        | None => Raise (OtherException "TypeError")
        end
    | None => Ret None
    end ;;
  let title :=
    match select_one "dd.mods-titleinfo-title-custom-ms a" result with
    | Some title_tag => Some (Str.strip (tag_text title_tag))
    | None => None
    end in
  let '(author, year) := author_year result in
  let resource_type :=
    match select_one "dd.mods-genre-authority-local-ms" result with
    | Some dd => Some (Str.strip (tag_text dd))
    | None => None
    end in
  let availability :=
    match select_one "dd.mods-genre-authority-local-ms.ubl-embargo" result with
    | Some dd => Some (Str.strip (tag_text dd))
    | None => None
    end in
  Ret (mkItem id title author year resource_type availability
         (abstract_of result)).

(** [extract_publication_data]: no handler of its own, so what the parser
    raises propagates to the caller. *)
Definition extract_publication_data (html_content : string)
  : result (list item_data) :=
  soup <- BeautifulSoup html_content ;;
  let results := select "div.ubl-resultrow.islandora-solr-search-result" soup in
  match results with
  | [] => Ret []
  | _ :: _ => mapM item_of results
  end.

(** Lines 195-205: the page numbers named by the pager links.  The
    script keeps them in a set; only its maximum is used. *)
Definition page_numbers_of (pager_ul : tag) : list Z :=
  flat_map
    (fun link =>
       match get "href" link with
       | Some href =>
           if truthy_str href then
             match re_search "[?&]page=(\d+)" href with
             | Some digits =>
                 match int digits with
                 | Some page_num => [page_num]
                 | None => []
                 end
             | None => []
             end
           else []
       | None => []
       end)
    (select "li a" pager_ul).

(** The [try] block of [get_total_pages], lines 181-214. *)
Definition get_total_pages_try : result Z :=
  response <- requests_get Probe ;;
  raise_for_status response ;;;
  soup <- BeautifulSoup (text response) ;;
  match select_one "ul.pager" soup with
  | None => Ret 1
  | Some pager_ul =>
      match page_numbers_of pager_ul with
      | [] => Ret 1
      | n :: ns => Ret (fold_left Z.max ns n)
      end
  end.

(** [get_total_pages]: one request, no retry; both handlers return 0. *)
Definition get_total_pages : Z :=
  match get_total_pages_try with
  | Ret total_pages => total_pages
  | Raise e => if is_request_exception e then 0 else 0
  end.

(** [fetch_and_parse_page]: the three handlers all return [[]]. *)
Definition fetch_and_parse_page (page_num : Z) : result (list item_data) :=
  try_except
    (response <- requests_get (Page page_num) ;;
     raise_for_status response ;;;
     extract_publication_data (text response))
    (fun e =>
       if is_requests_timeout e then Ret []
       else if is_request_exception e then Ret []
       else Ret []).

(** Python's [/] on numbers. *)
Definition truediv (a b : Q) : result Q :=
  if Qeq_bool b 0 then Raise ZeroDivisionError else Ret (a / b)%Q.

(** [sum(processing_times)] *)
Definition sum (l : list Q) : Q := fold_left Qplus l 0%Q.

(** Lines 321-324: the divisor of the ETA. *)
Definition effective_parallelism (pages_remaining : Z) : Z :=
  Z.min MAX_WORKERS (if 0 <? pages_remaining then pages_remaining else 1).

(** Lines 313-325: [eta_seconds]; [None] when [processing_times] is empty
    and nothing is displayed.  Durations are exact rationals here. *)
Definition eta_seconds (processing_times : list Q)
    (total_pages completed_pages : Z) : result (option Q) :=
  match processing_times with
  | [] => Ret None
  | _ :: _ =>
      avg_time_per_page <-
        truediv (sum processing_times)
          (inject_Z (Z.of_nat (List.length processing_times))) ;;
      let pages_remaining := total_pages - completed_pages in
      eta <-
        truediv (avg_time_per_page * inject_Z pages_remaining)%Q
          (inject_Z (effective_parallelism pages_remaining)) ;;
      Ret (Some eta)
  end.

(** [int(x)]: truncation towards zero.  The text shown on the progress
    bar, [str(datetime.timedelta(seconds=int(eta_seconds)))], is kept as
    this integer. *)
Definition int_of_Q (x : Q) : Z :=
  if Qle_bool 0 x then Qfloor x else Qceiling x.

(** The variables of the main script while it consumes the futures;
    [unhandled] lists the pages reported by the handler of line 335. *)
Record state : Type := mkState {
  all_publications_data : list item_data;
  completed_pages : Z;
  pbar_n : Z;
  processing_times : list Q;
  eta_shown : option Z;
  unhandled : list Z
}.

(** Lines 294-336: the body of [for future in as_completed(...)]. *)
Definition on_completed (total_pages : Z) (st : state) (page_num : Z)
  : state :=
  match fetch_and_parse_page page_num with
  | Raise _ =>
      mkState (all_publications_data st) (completed_pages st)
        (pbar_n st + 1) (processing_times st) (eta_shown st)
        (unhandled st ++ [page_num])
  | Ret page_data =>
      let data := all_publications_data st ++ page_data in
      let completed := completed_pages st + 1 in
      let n := pbar_n st + 1 in
      let times := processing_times st ++ [page_time page_num] in
      match eta_seconds times total_pages completed with
      | Ret eta =>
          mkState data completed n times
            (match eta with
             | Some e => Some (int_of_Q e)
             | None => eta_shown st
             end)
            (unhandled st)
      | Raise _ =>
          mkState data completed (n + 1) times (eta_shown st)
            (unhandled st ++ [page_num])
      end
  end.

(** [concurrent.futures.as_completed]: [n] futures to go from step [k]. *)
Fixpoint as_completed_from (k n : nat) (futures : list Z) : list Z :=
  match n with
  | O => []
  | S n' =>
      match futures with
      | [] => []
      | f0 :: _ =>
          let i := (completes k mod List.length futures)%nat in
          nth i futures f0 ::
          as_completed_from (S k) n' (firstn i futures ++ skipn (S i) futures)
      end
  end.

Definition as_completed (futures : list Z) : list Z :=
  as_completed_from 0 (List.length futures) futures.

(** [range(1, total_pages + 1)] *)
Definition pages_to_scrape (total_pages : Z) : list Z :=
  map Z.of_nat (seq 1 (Z.to_nat total_pages)).

(** What a run of the script did: the requests it issued (the probe, then
    one per submitted page) and, unless it stopped at the message [Could
    not determine total pages or no results found. Exiting.], the final
    values of its variables. *)
Record run : Type := mkRun {
  requests : list request;
  outcome : option state
}.

(** Lines 254-338. *)
Definition main : run :=
  let total_pages := get_total_pages in
  if total_pages <=? 0 then mkRun [Probe] None
  else
    let pages := pages_to_scrape total_pages in
    mkRun (Probe :: map Page pages)
      (Some (fold_left (on_completed total_pages) (as_completed pages)
               (mkState [] 0 0 [] None []))).

(** The ETA as the specification words it: the divisor is
    [min(ceiling, remaining_units)]. *)
Definition eta_seconds_spec (avg_latency : Q) (remaining_units : Z)
  : result Q :=
  truediv (avg_latency * inject_Z remaining_units)%Q
    (inject_Z (Z.min MAX_WORKERS remaining_units)).

(** The list a page's future holds: [fetch_and_parse_page] always returns
    (see [fetch_and_parse_page_returns]). *)
Definition page_data (page_num : Z) : list item_data :=
  match fetch_and_parse_page page_num with
  | Ret data => data
  | Raise _ => []
  end.


End Scraper.

End Scrape.

(** ** fetch_publications.py: kinds of failed attempts *)

Module Attempts.
Import Retry.

(** The attempts after which [fetch_records] always sleeps and moves on:
    a 503 answer, or [asyncio.TimeoutError] from the request. *)
Definition busy_or_timeout (got : result response) : bool :=
  match got with
  | Ret r => status r =? 503
  | Raise e => is_asyncio_timeout e
  end.

(** The attempts that end in the catch-all handler: any other exception
    from the request, or a status that [raise_for_status] rejects. *)
Definition other_error (got : result response) : bool :=
  match got with
  | Ret r => negb (status r =? 503) && (400 <=? status r)
  | Raise e => negb (is_asyncio_timeout e)
  end.

End Attempts.

(** ** fetch_publications.py: what a record's fields end up holding *)

Module Fields.
Import Extract.

(** The value of a field that held [old] once the texts [new] have been
    merged into it, one after the other. *)
Definition merge_values (old : option value) (new : list (option string))
  : option value :=
  match new with
  | [] => old
  | v :: vs =>
      match old with
      | None =>
          match vs with
          | [] => Some (Single v)
          | _ :: _ => Some (Many (v :: vs))
          end
      | Some (Single s) => Some (Many (s :: v :: vs))
      | Some (Many l) => Some (Many (l ++ v :: vs))
      end
  end.

(** What the two header queries of lines 34-40 leave in [record_data]. *)
Definition header_value (tag : string) (identifier datestamp : list string)
  : option value :=
  if String.eqb tag "identifier" then
    match identifier with
    | i :: _ => Some (Single (Some i))
    | [] => None
    end
  else if String.eqb tag "datestamp" then
    match datestamp with
    | d :: _ => Some (Single (Some d))
    | [] => None
    end
  else None.

Section Occurrences.
Context {lxml : Lxml}.

(** The texts of the elements named [tag], in document order; [names] are
    the local names of [els]. *)
Fixpoint occurrences (tag : string) (names : list string)
    (els : list element) : list (option string) :=
  match names, els with
  | n :: ns, e :: es =>
      if String.eqb tag n
      then element_text e :: occurrences tag ns es
      else occurrences tag ns es
  | _, _ => []
  end.

End Occurrences.

End Fields.

(** ** fetch_publications.py: [main] and [save_to_csv] *)

Module Cli.
Import Retry Extract Harvest.

(** What a run of [main] leaves behind: the concurrency it used, the
    records harvested and the records handed to [save_to_csv], if any. *)
Record outcome : Type := mkOutcome {
  concurrency : Z;
  records : list record_data;
  saved : option (list record_data)
}.

Section Main.
Context {lxml : Lxml}.

(** The builtin [int] on a command-line argument; [None] stands for
    [ValueError]. *)
Variable py_int : string -> option Z.
Variable session : nat -> option token -> nat -> result response.
Variable finished : nat -> task -> bool.

(** Lines 174-180: the concurrency level, from [sys.argv]. *)
Definition concurrency_of (argv : list string) : Z :=
  match argv with
  | _ :: arg :: _ =>
      match py_int arg with
      | Some n => n
      | None => 8
      end
  | _ => 8
  end.

(** Lines 172-190; [None] when [fuel] iterations of the harvest loop are
    not enough.  [save_to_csv] builds a DataFrame from the records and
    writes it; it is called only [if records]. *)
Definition main (argv : list string) (fuel : nat) : option outcome :=
  let concurrency := concurrency_of argv in
  match harvest_records_async concurrency session finished fuel with
  | None => None
  | Some records =>
      Some (mkOutcome concurrency records
              (match records with
               | [] => None
               | _ :: _ => Some records
               end))
  end.

End Main.

End Cli.

(** ** fetch_publications.py: what the answer to one call holds *)

Module Answers.
Import Retry Extract Harvest.

Section Answers.
Context {lxml : Lxml}.
Variable session : nat -> option token -> nat -> result response.

(** Lines 102-113 and 137-140: what the engine reads from the answer to
    call [id] for [params]: the value of [extract_records] on the payload,
    or nothing when [fetch_records] came back with [None] or an empty
    text. *)
Definition answer (id : nat) (params : option token)
  : list record_data * option token :=
  match fetch session id params with
  | Some xml =>
      if truthy_str xml then extract_records_value xml else ([], None)
  | None => ([], None)
  end.

(** The records of that answer (lines 108 and 141). *)
Definition batch_of (id : nat) (params : option token) : list record_data :=
  fst (answer id params).

(** The token of that answer, when it passes the test [if next_token] of
    line 143 ([if resumption_token] of line 118 for the first call). *)
Definition yielded (id : nat) (params : option token) : option token :=
  match snd (answer id params) with
  | Some t => if truthy_str t then Some t else None
  | None => None
  end.

(** The records of the answers to the calls numbered from [id], one call
    for each token of [toks]. *)
Fixpoint batches_of (id : nat) (toks : list token) : list record_data :=
  match toks with
  | [] => []
  | t :: rest => batch_of id (Some t) ++ batches_of (S id) rest
  end.

(** The queue that holds [o] and nothing else. *)
Definition queued (o : option token) : list token :=
  match o with
  | Some t => [t]
  | None => []
  end.

(** At a head of the outer loop the tokens dispatched and queued so far are
    the chain that the answers spell out: the first call yields the first
    token, and the call made for each dispatched token yields the token
    after it; the records accumulated are those of these answers. *)
Definition follows_answers (st : state) : Prop :=
  tasks st = [] /\
  (List.length (resumption_tokens st) <= 1)%nat /\
  calls st = S (List.length (dispatched st)) /\
  all_records st = batch_of 0 None ++ batches_of 1 (dispatched st) /\
  nth_error (dispatched st ++ resumption_tokens st) 0 = yielded 0 None /\
  (forall k tok,
     nth_error (dispatched st) k = Some tok ->
     nth_error (dispatched st ++ resumption_tokens st) (S k) =
     yielded (S k) (Some tok)).

End Answers.

End Answers.

(** ** Concrete sources used to exercise the model *)

Module Examples.
Import Retry.

Definition ok (body : string) : result response :=
  Ret (mkResponse 200 (Ret body)).

(** Busy, then a timeout, then a good answer. *)
Definition flaky (i : nat) : result response :=
  match i with
  | O => Ret (mkResponse 503 (Ret "busy"))
  | S O => Raise AsyncioTimeoutError
  | _ => ok "<OAI-PMH/>"
  end.

(** Not found, then a good answer. *)
Definition not_found_once (i : nat) : result response :=
  match i with
  | O => Ret (mkResponse 404 (Ret "not found"))
  | _ => ok "<OAI-PMH/>"
  end.

(** A toy XML document model: a batch with its record identifiers and
    resumption tokens, and the records themselves. *)
Inductive toy_xml : Type :=
| Doc (ids : list string) (tokens : list string)
| Rec (id : string).

Definition toy_fromstring (s : string) : result toy_xml :=
  if String.eqb s "b0" then Ret (Doc ["r0"; "r1"] ["t1"])
  else if String.eqb s "b1" then Ret (Doc ["r2"; "r3"] ["t2"])
  else if String.eqb s "b2" then Ret (Doc ["r4"; "r5"] ["t3"])
  else if String.eqb s "b3" then Ret (Doc ["r6"; "r7"] [" "])
  else Raise XMLSyntaxError.

Definition toy_xpath (q : string) (e : toy_xml) : result (list toy_xml) :=
  match e with
  | Doc ids _ => if String.eqb q "//oai:record" then Ret (map Rec ids) else Ret []
  | Rec _ => Ret []
  end.

Definition toy_xpath_text (q : string) (e : toy_xml) : result (list string) :=
  match e with
  | Doc _ tokens =>
      if String.eqb q "//oai:resumptionToken/text()" then Ret tokens else Ret []
  | Rec id =>
      if String.eqb q "./oai:header/oai:identifier/text()" then Ret [id]
      else Ret []
  end.

#[local] Instance toy_lxml : Extract.Lxml := {|
  Extract.element := toy_xml;
  Extract.fromstring := toy_fromstring;
  Extract.xpath := toy_xpath;
  Extract.xpath_text := toy_xpath_text;
  Extract.localname := fun _ => Ret "title";
  Extract.element_text := fun _ => None
|}.

(** A source whose chain is b0 -t1-> b1 -t2-> b2 -t3-> b3. *)
Definition chain_source (id : nat) (params : option string) (i : nat)
  : result response :=
  match params with
  | None => ok "b0"
  | Some t =>
      if String.eqb t "t1" then ok "b1"
      else if String.eqb t "t2" then ok "b2"
      else if String.eqb t "t3" then ok "b3"
      else Ret (mkResponse 400 (Ret "badResumptionToken"))
  end.

(** The same source, always busy when asked for the batch of t2. *)
Definition broken_source (id : nat) (params : option string) (i : nat)
  : result response :=
  match params with
  | Some t =>
      if String.eqb t "t2" then Ret (mkResponse 503 (Ret "busy"))
      else chain_source id params i
  | None => chain_source id params i
  end.

(** A scheduler that never names a finished task. *)
Definition nobody (n : nat) (t : Harvest.task) : bool := false.

Definition rec_of (id : string) : Extract.record_data :=
  [("identifier", Extract.Single (Some id))].

Definition chain_batches : list Harvest.batch :=
  [Harvest.mkBatch "t1" "b1" [rec_of "r2"; rec_of "r3"];
   Harvest.mkBatch "t2" "b2" [rec_of "r4"; rec_of "r5"];
   Harvest.mkBatch "t3" "b3" [rec_of "r6"; rec_of "r7"]].

(** A toy HTML document model: a page with its result rows and the
    links of its pager. *)
Inductive toy_html : Type :=
| Soup (rows : nat) (pager : list string)
| Row
| Pager (hrefs : list string)
| Link (href : string).

(** The toy parser rejects a marked section with an unknown keyword, as
    [html.parser] does. *)
Definition toy_BeautifulSoup (s : string) : result toy_html :=
  if String.eqb s "<![x]>" then Raise ParserRejectedMarkup
  else if String.eqb s "first page" then Ret (Soup 2 ["?page=2"; "?page=3"])
  else if String.eqb s "two rows" then Ret (Soup 2 [])
  else Ret (Soup 0 []).

Definition toy_select (q : string) (t : toy_html) : list toy_html :=
  match t with
  | Soup n _ =>
      if String.eqb q "div.ubl-resultrow.islandora-solr-search-result"
      then repeat Row n else []
  | Pager hrefs => if String.eqb q "li a" then map Link hrefs else []
  | _ => []
  end.

Definition toy_select_one (q : string) (t : toy_html) : option toy_html :=
  match t with
  | Soup _ (h :: hs) =>
      if String.eqb q "ul.pager" then Some (Pager (h :: hs)) else None
  | _ => None
  end.

Definition toy_get (a : string) (t : toy_html) : option string :=
  match t with
  | Link href => if String.eqb a "href" then Some href else None
  | _ => None
  end.

Definition toy_re_search (pattern s : string) : option string :=
  if String.eqb pattern "[?&]page=(\d+)" && String.prefix "?page=" s
  then Some (String.substring 6 (String.length s - 6) s)
  else None.

#[local] Instance toy_bs4 : Scrape.Bs4 := {|
  Scrape.tag := toy_html;
  Scrape.BeautifulSoup := toy_BeautifulSoup;
  Scrape.select := toy_select;
  Scrape.select_one := toy_select_one;
  Scrape.get := toy_get;
  Scrape.tag_text := fun _ => EmptyString;
  Scrape.find_parent := fun _ _ => None;
  Scrape.contents := fun _ => [];
  Scrape.re_search := toy_re_search;
  Scrape.re_sub := fun _ _ s => s;
  Scrape.re_escape := fun s => s
|}.

(** Three pages of two rows each. *)
Definition site (r : Scrape.request) : result Scrape.http_response :=
  match r with
  | Scrape.Probe => Ret (Scrape.mkHttp 200 "first page")
  | Scrape.Page _ => Ret (Scrape.mkHttp 200 "two rows")
  end.


(** The same site, where page 2 times out and page 3 is rejected by the
    parser. *)
Definition site_flaky (r : Scrape.request) : result Scrape.http_response :=
  match r with
  | Scrape.Page 2 => Raise RequestsTimeout
  | Scrape.Page 3 => Ret (Scrape.mkHttp 200 "<![x]>")
  | _ => site r
  end.

Definition millisecond (page_num : Z) : Q := (1 # 1000)%Q.

(** The futures complete last first. *)
Definition last_first (k : nat) : nat := 2%nat.

End Examples.

(** ** Further sources used to exercise the model *)

Module MoreExamples.
Import Retry.

(** Always busy. *)
Definition busy (i : nat) : result response :=
  Ret (mkResponse 503 (Ret "busy")).

(** The connection always fails. *)
Definition unreachable (i : nat) : result response :=
  Raise ClientConnectionError.

(** Two server errors, then a good answer. *)
Definition recovering (i : nat) : result response :=
  match i with
  | O => Ret (mkResponse 500 (Ret "error"))
  | S O => Raise ClientConnectionError
  | _ => Examples.ok "<OAI-PMH/>"
  end.

(** A toy XML model whose records carry Dublin Core elements; a broken
    record holds a node that has no qualified name. *)
Inductive dc_xml : Type :=
| DcDoc (broken : bool)
| DcRecord (broken : bool)
| DcElement (name : string) (text : option string)
| DcComment.

Definition dc_fromstring (s : string) : result dc_xml :=
  if String.eqb s "<bad/>" then Ret (DcDoc true) else Ret (DcDoc false).

Definition dc_xpath (q : string) (e : dc_xml) : result (list dc_xml) :=
  match e with
  | DcDoc broken =>
      if String.eqb q "//oai:record"
      then Ret [DcRecord false; DcRecord broken] else Ret []
  | DcRecord false =>
      if String.eqb q ".//oai_dc:dc/*" then
        Ret [DcElement "title" (Some "On harvesting");
             DcElement "creator" (Some "A. Author");
             DcElement "identifier" (Some "https://hdl.handle.net/1887/1");
             DcElement "creator" (Some "B. Author");
             DcElement "creator" None]
      else Ret []
  | DcRecord true =>
      if String.eqb q ".//oai_dc:dc/*"
      then Ret [DcElement "title" (Some "Broken"); DcComment] else Ret []
  | _ => Ret []
  end.

Definition dc_xpath_text (q : string) (e : dc_xml) : result (list string) :=
  match e with
  | DcDoc _ =>
      if String.eqb q "//oai:resumptionToken/text()" then Ret ["tok "]
      else Ret []
  | DcRecord _ =>
      if String.eqb q "./oai:header/oai:identifier/text()" then Ret ["oai:1"]
      else if String.eqb q "./oai:header/oai:datestamp/text()"
      then Ret ["2024-01-01"]
      else Ret []
  | _ => Ret []
  end.

Definition dc_localname (e : dc_xml) : result string :=
  match e with
  | DcElement name _ => Ret name
  | _ => Raise (OtherException "ValueError")
  end.

Definition dc_text (e : dc_xml) : option string :=
  match e with
  | DcElement _ text => text
  | _ => None
  end.

#[local] Instance dc_lxml : Extract.Lxml := {|
  Extract.element := dc_xml;
  Extract.fromstring := dc_fromstring;
  Extract.xpath := dc_xpath;
  Extract.xpath_text := dc_xpath_text;
  Extract.localname := dc_localname;
  Extract.element_text := dc_text
|}.

(** The source of [Examples.chain_source], with no answer at all. *)
Definition silent_source (id : nat) (params : option string) (i : nat)
  : result response := Raise ClientConnectionError.

(** A scheduler that names every task. *)
Definition everybody (n : nat) (t : Harvest.task) : bool := true.

(** [int] on the arguments the examples pass. *)
Definition toy_int (s : string) : option Z :=
  if String.eqb s "0" then Some 0
  else if String.eqb s "4" then Some 4
  else if String.eqb s "16" then Some 16
  else None.

(** The futures complete in the order of submission. *)
Definition first_first (k : nat) : nat := 0%nat.

End MoreExamples.

(** * Properties *)

(** ** The retry policy *)

Module RetryFacts.
Import Retry.

Lemma attempt_success retry_count i got body :
  succeeds got = Some body ->
  attempt retry_count i got = ([], Return (Some body)).
Proof.
  unfold succeeds, attempt, raise_for_status.
  destruct got as [r|e]; simpl; [|discriminate].
  destruct (status r =? 503); [discriminate|].
  destruct (400 <=? status r); [discriminate|]. simpl.
  destruct (text r); simpl; congruence.
Qed.

Lemma attempt_failure retry_count i got :
  succeeds got = None ->
  i < retry_count - 1 ->
  attempt retry_count i got = ([Sleep (wait_time i)], Next).
Proof.
  intros Hf Hi. apply Z.ltb_lt in Hi.
  unfold succeeds in Hf. unfold attempt, raise_for_status.
  destruct got as [r|e]; simpl.
  - destruct (status r =? 503); [reflexivity|].
    destruct (400 <=? status r); simpl.
    + now rewrite Hi.
    + destruct (text r) as [b|e]; simpl; [discriminate|].
      rewrite Hi. now destruct (is_asyncio_timeout e).
  - rewrite Hi. now destruct (is_asyncio_timeout e).
Qed.

Lemma transient_fails got : transient got = true -> succeeds got = None.
Proof.
  unfold transient, succeeds. destruct got as [r|e]; [|reflexivity].
  now intros ->.
Qed.

Lemma client_error_fails got : client_error got = true -> succeeds got = None.
Proof.
  unfold client_error, succeeds. destruct got as [r|e]; [|reflexivity].
  intros H. apply andb_true_iff in H as [H _]. rewrite H.
  now destruct (status r =? 503).
Qed.

(** [k] failed attempts from index [i], then a success: the loop returns the
    body after sleeping once per failure. *)
Lemma fetch_loop_failures_then_success get retry_count body :
  forall k n i,
    (k < n)%nat ->
    Z.of_nat (i + k) < retry_count ->
    (forall j, (j < k)%nat -> succeeds (get (i + j)%nat) = None) ->
    succeeds (get (i + k)%nat) = Some body ->
    fst (fetch_loop get retry_count n i) = Some body /\
    sleeps (snd (fetch_loop get retry_count n i)) =
      map (fun j => wait_time (Z.of_nat j)) (seq i k) /\
    attempts (snd (fetch_loop get retry_count n i)) = S k.
Proof.
  induction k as [|k IH]; intros n i Hn Hrc Hfail Hok.
  - destruct n as [|n]; [lia|]. simpl.
    rewrite Nat.add_0_r in Hok.
    rewrite (attempt_success _ _ _ _ Hok). simpl. auto.
  - destruct n as [|n]; [lia|]. simpl.
    assert (H0 : succeeds (get i) = None).
    { specialize (Hfail 0%nat). rewrite Nat.add_0_r in Hfail.
      apply Hfail. lia. }
    rewrite (attempt_failure retry_count _ _ H0) by lia.
    destruct (IH n (S i)) as (Hr & Hs & Ha).
    + lia.
    + replace (S i + k)%nat with (i + S k)%nat by lia. exact Hrc.
    + intros j Hj. replace (S i + j)%nat with (i + S j)%nat by lia.
      apply Hfail. lia.
    + replace (S i + k)%nat with (i + S k)%nat by lia. exact Hok.
    + destruct (fetch_loop get retry_count n (S i)) as [r tr'].
      simpl in *. unfold sleeps, attempts in *. simpl.
      rewrite Hs, Ha. auto.
Qed.

(** An attempt that does not succeed either moves on to the next index or,
    at the last index, gives up. *)
Lemma attempt_not_success retry_count i got :
  succeeds got = None ->
  (exists w, attempt retry_count i got = ([Sleep w], Next)) \/
  (attempt retry_count i got = ([], Return None) /\ retry_count - 1 <= i).
Proof.
  intros Hf. destruct (Z.lt_ge_cases i (retry_count - 1)) as [Hi|Hi].
  - left. eexists. now apply attempt_failure.
  - unfold succeeds in Hf. unfold attempt, raise_for_status.
    apply Z.ltb_ge in Hi as Hb.
    destruct got as [r|e]; simpl.
    + destruct (status r =? 503); [left; now eexists|].
      destruct (400 <=? status r); simpl.
      * rewrite Hb. now right.
      * destruct (text r) as [b|e]; simpl; [discriminate|].
        rewrite Hb. destruct (is_asyncio_timeout e);
          [left; now eexists | now right].
    + rewrite Hb. destruct (is_asyncio_timeout e);
        [left; now eexists | now right].
Qed.

(** When no attempt succeeds, the loop makes all its attempts and returns
    [None]. *)
Lemma fetch_loop_gives_up get retry_count :
  forall n i,
    Z.of_nat (i + n) = retry_count ->
    (forall j, succeeds (get j) = None) ->
    fst (fetch_loop get retry_count n i) = None /\
    attempts (snd (fetch_loop get retry_count n i)) = n.
Proof.
  induction n as [|n IH]; intros i Hn Hfail; simpl; [auto|].
  destruct (attempt_not_success retry_count (Z.of_nat i) (get i) (Hfail i))
    as [[w ->] | [-> Hlast]].
  - destruct (IH (S i)) as [Hr Ha]; [lia | exact Hfail |].
    destruct (fetch_loop get retry_count n (S i)) as [r tr].
    simpl in *. unfold attempts in *. simpl. auto.
  - simpl. unfold attempts. simpl. split; [reflexivity|].
    f_equal. lia.
Qed.

(** A unit whose every attempt fails is given up after exactly
    [retry_count] requests. *)
Lemma fetch_records_gives_up get (retry_count : Z) :
  0 <= retry_count ->
  (forall j, succeeds (get j) = None) ->
  fst (fetch_records get retry_count) = None /\
  attempts (snd (fetch_records get retry_count)) = Z.to_nat retry_count.
Proof.
  intros Hrc Hfail. unfold fetch_records.
  apply fetch_loop_gives_up; [lia | exact Hfail].
Qed.

(** C7.  A fetch that fails transiently exactly [k < N] times and then
    succeeds makes [fetch_records] return the body, and the sleeps it
    performs are exactly [min(2^i, 30)] for [i = 0 .. k-1]: the sequence
    1, 2, 4, ... capped at 30 seconds, of length [k]. *)
Theorem fetch_records_retries_transient_failures
    (get : nat -> result response) (N : Z) (k : nat) (body : string) :
  Z.of_nat k < N ->
  (forall j, (j < k)%nat -> transient (get j) = true) ->
  succeeds (get k) = Some body ->
  fst (fetch_records get N) = Some body /\
  sleeps (snd (fetch_records get N)) =
    map (fun i => Z.min (2 ^ Z.of_nat i) 30) (seq 0 k) /\
  List.length (sleeps (snd (fetch_records get N))) = k.
Proof.
  intros Hk Htr Hok. unfold fetch_records.
  destruct (fetch_loop_failures_then_success get N body k (Z.to_nat N) 0%nat)
    as (Hr & Hs & _); try assumption; try lia.
  - intros j Hj. apply transient_fails, Htr, Hj.
  - repeat split; try assumption.
    rewrite Hs, length_map, length_seq. reflexivity.
Qed.

Lemma fetch_records_retries_transient_failures_witness :
  fst (fetch_records Examples.flaky 3) = Some "<OAI-PMH/>" /\
  sleeps (snd (fetch_records Examples.flaky 3)) = [1; 2] /\
  List.length (sleeps (snd (fetch_records Examples.flaky 3))) = 2%nat.
Proof.
  apply (fetch_records_retries_transient_failures Examples.flaky 3 2
           "<OAI-PMH/>").
  - lia.
  - intros [|[|j]] Hj; [reflexivity | reflexivity | lia].
  - reflexivity.
Defined.

(** C2, as the code has it.  A response with a client-error status is
    handled like any other exception: the unit sleeps [min(2^i, 30)] and
    tries again, unless [i] is the last index, where it returns [None]
    without sleeping. *)
Theorem client_error_is_retried_until_last_attempt
    (retry_count i : Z) (got : result response) :
  client_error got = true ->
  attempt retry_count i got =
    if i <? retry_count - 1
    then ([Sleep (Z.min (2 ^ i) 30)], Next)
    else ([], Return None).
Proof.
  intros H. destruct (i <? retry_count - 1) eqn:Hi.
  - apply Z.ltb_lt in Hi.
    now rewrite (attempt_failure _ _ _ (client_error_fails _ H) Hi).
  - unfold client_error in H. destruct got as [r|e]; [|discriminate].
    apply andb_true_iff in H as [H4 H5].
    unfold attempt, raise_for_status. simpl.
    destruct (status r =? 503) eqn:E.
    + apply Z.eqb_eq in E. apply Z.ltb_lt in H5. lia.
    + rewrite H4. simpl. now rewrite Hi.
Qed.

Lemma client_error_is_retried_until_last_attempt_witness :
  attempt 3 0 (Examples.not_found_once 0) = ([Sleep 1], Next).
Proof.
  apply (client_error_is_retried_until_last_attempt 3 0
           (Examples.not_found_once 0)).
  reflexivity.
Defined.

(** C2, as stated, fails: after a 404 on the first attempt the policy
    sleeps one second, issues a second request and returns its body. *)
Lemma client_error_does_not_fail_fast :
  client_error (Examples.not_found_once 0) = true /\
  fetch_records Examples.not_found_once 3 =
    (Some "<OAI-PMH/>", [Get 0; Sleep 1; Get 1]) /\
  attempts (snd (fetch_records Examples.not_found_once 3)) = 2%nat.
Proof. repeat split. Qed.

End RetryFacts.

(** ** The extractor of the OAI-PMH harvester *)

Module ExtractFacts.
Import Extract.

Section Facts.
Context {lxml : Lxml}.

(** [extract_records] always returns, and what it returns is
    [extract_records_value]. *)
Lemma extract_records_returns (xml_content : string) :
  extract_records xml_content = Ret (extract_records_value xml_content).
Proof.
  unfold extract_records, extract_records_value, try_except.
  now destruct (extract_records_try xml_content).
Qed.

(** When anything in the [try] block raises, the result is [[], None]. *)
Lemma extract_records_parse_failure (xml_content : string) :
  raises (extract_records_try xml_content) ->
  extract_records xml_content = Ret ([], None).
Proof.
  intros [e He]. unfold extract_records. now rewrite He.
Qed.

(** A token that [extract_records] returns is never blank. *)
Lemma token_of_truthy (l : list string) (t : string) :
  token_of l = Some t -> truthy_str t = true.
Proof.
  unfold token_of. destruct l as [|t0 l]; [discriminate|].
  destruct (truthy_str (Str.strip t0)) eqn:E; [|discriminate].
  intros [= <-]. unfold truthy_str in *.
  destruct t0; [discriminate E | reflexivity].
Qed.

End Facts.

End ExtractFacts.

(** ** The chained-mode engine *)

Module HarvestFacts.
Import Retry Extract Harvest.

Section Facts.
Context {lxml : Lxml}.
Variable max_concurrent : Z.
Variable session : nat -> option token -> nat -> result response.
Variable finished : nat -> task -> bool.

Lemma merge_response_spec (enqueue : bool) (r : option string) (st : state) :
  let st' := merge_response enqueue r st in
  exists new,
    (List.length new <= 1)%nat /\
    discovered st' = discovered st ++ new /\
    resumption_tokens st' =
      resumption_tokens st ++ (if enqueue then new else []) /\
    (exists recs, all_records st' = all_records st ++ recs) /\
    tasks st' = tasks st /\
    dispatched st' = dispatched st /\
    high_water st' = high_water st.
Proof.
  unfold merge_response.
  assert (Hsame : exists new : list token,
    (List.length new <= 1)%nat /\
    discovered st = discovered st ++ new /\
    resumption_tokens st =
      resumption_tokens st ++ (if enqueue then new else []) /\
    (exists recs, all_records st = all_records st ++ recs) /\
    tasks st = tasks st /\ dispatched st = dispatched st /\
    high_water st = high_water st).
  { exists []. rewrite !app_nil_r. destruct enqueue; simpl; rewrite ?app_nil_r.
    all: repeat split; auto; exists []; now rewrite app_nil_r. }
  destruct r as [xml|]; [|exact Hsame].
  destruct (truthy_str xml); [|exact Hsame].
  destruct (extract_records_value xml) as [recs [t|]]; simpl.
  - destruct (truthy_str t); simpl.
    + exists [t]. destruct enqueue; simpl; rewrite ?app_nil_r;
        repeat split; auto; now exists recs.
    + exists []. destruct enqueue; simpl; rewrite ?app_nil_r;
        repeat split; auto; now exists recs.
  - exists []. destruct enqueue; simpl; rewrite ?app_nil_r;
      repeat split; auto; now exists recs.
Qed.

Lemma fill_tasks_spec (toks : list token) :
  forall st,
    resumption_tokens st = toks ->
    let st' := fill_tasks max_concurrent toks st in
    all_records st' = all_records st /\
    discovered st' = discovered st /\
    dispatched st' ++ resumption_tokens st' = dispatched st ++ toks /\
    (List.length (tasks st') + List.length (resumption_tokens st') =
       List.length (tasks st) + List.length toks)%nat /\
    (List.length (tasks st) <= List.length (tasks st'))%nat /\
    (high_water st' <= Nat.max (high_water st) (List.length (tasks st')))%nat /\
    (within_ceiling max_concurrent st -> within_ceiling max_concurrent st').
Proof.
  induction toks as [|tok rest IH]; intros st Htok; simpl.
  - rewrite Htok. repeat (split; [auto; lia|]). auto.
  - destruct (Z.of_nat (List.length (tasks st)) <? max_concurrent) eqn:E.
    + apply Z.ltb_lt in E.
      destruct (IH (create_task tok rest st) eq_refl)
        as (Ha & Hd & Hq & Hl & Hm & Hh & Hw).
      simpl in Ha, Hd, Hq, Hl, Hm, Hh. rewrite length_app in Hl, Hm, Hh.
      simpl in Hl, Hm, Hh.
      split; [exact Ha|]. split; [exact Hd|].
      split; [rewrite Hq, <- app_assoc; reflexivity|].
      split; [lia|]. split; [lia|]. split; [lia|].
      intros [H1 H2]. apply Hw. unfold within_ceiling. simpl.
      rewrite length_app. simpl. lia.
    + rewrite Htok. repeat (split; [auto; lia|]). auto.
Qed.

Lemma asyncio_wait_spec (n : nat) (ts done pending : list task) :
  asyncio_wait finished n ts = (done, pending) ->
  (List.length done + List.length pending = List.length ts)%nat /\
  (ts <> [] -> done <> []).
Proof.
  unfold asyncio_wait. destruct (filter (finished n) ts) as [|d ds] eqn:E.
  - intros [= <- <-]. split.
    + rewrite <- (firstn_skipn 1 ts) at 3. now rewrite length_app.
    + destruct ts; [congruence | discriminate].
  - intros [= <- <-]. split; [|discriminate].
    rewrite <- E. apply filter_length.
Qed.

Lemma process_all_spec (pending done : list task) :
  forall st,
    let st' := fold_left (process_done session pending) done st in
    exists new,
      (List.length new <= List.length done)%nat /\
      resumption_tokens st' = resumption_tokens st ++ new /\
      discovered st' = discovered st ++ new /\
      dispatched st' = dispatched st /\
      high_water st' = high_water st /\
      tasks st' = match done with [] => tasks st | _ :: _ => pending end.
Proof.
  induction done as [|t done IH]; intros st; simpl.
  - exists []. rewrite !app_nil_r. repeat split; auto.
  - destruct (merge_response_spec true (task_result session t) st)
      as (new1 & Hl1 & Hd1 & Hq1 & _ & _ & Hp1 & Hh1).
    destruct (IH (process_done session pending st t))
      as (new2 & Hl2 & Hq2 & Hd2 & Hp2 & Hh2 & Ht2).
    exists (new1 ++ new2). unfold process_done in *. simpl in *.
    rewrite Hq2, Hd2, Hp2, Hh2, Hq1, Hd1, Hp1, Hh1, length_app, !app_assoc.
    repeat split; auto; [lia|].
    rewrite Ht2. now destruct done.
Qed.

(** What one iteration of the outer loop preserves, from any state. *)
Lemma loop_body_accounted (st : state) :
  accounted st -> accounted (loop_body max_concurrent session finished st).
Proof.
  unfold accounted, loop_body. intros Hacc.
  destruct (fill_tasks_spec (resumption_tokens st) st eq_refl)
    as (_ & Hd & Hq & _).
  set (st1 := fill_tasks max_concurrent (resumption_tokens st) st) in *.
  assert (H1 : discovered st1 = dispatched st1 ++ resumption_tokens st1)
    by congruence.
  destruct (tasks st1) as [|t ts]; [exact H1|].
  destruct (asyncio_wait finished (rounds st1) (t :: ts)) as [done pending].
  destruct (process_all_spec pending done st1)
    as (new & _ & Hq2 & Hd2 & Hp2 & _).
  simpl. rewrite Hq2, Hd2, Hp2, H1, app_assoc. reflexivity.
Qed.

Lemma loop_body_within_ceiling (st : state) :
  within_ceiling max_concurrent st ->
  within_ceiling max_concurrent (loop_body max_concurrent session finished st).
Proof.
  unfold loop_body. intros Hw.
  destruct (fill_tasks_spec (resumption_tokens st) st eq_refl)
    as (_ & _ & _ & _ & _ & _ & Hw1). specialize (Hw1 Hw).
  set (st1 := fill_tasks max_concurrent (resumption_tokens st) st) in *.
  destruct (tasks st1) as [|t ts] eqn:Et; [exact Hw1|].
  destruct (asyncio_wait finished (rounds st1) (t :: ts))
    as [done pending] eqn:Ew.
  destruct (asyncio_wait_spec _ _ _ _ Ew) as [Hlen Hne].
  destruct (process_all_spec pending done st1)
    as (new & _ & _ & _ & _ & Hh & Ht).
  destruct Hw1 as [H1 H2]. unfold within_ceiling. simpl.
  rewrite Hh, Ht. split; [|exact H2].
  rewrite Et in H1. destruct done; [now elim Hne|].
  simpl in *. lia.
Qed.

(** From a state with at most one unit, the iteration ends with no task
    in flight and at most one token queued, having had at most one task. *)
Lemma loop_body_sequential (st : state) :
  sequential st -> (high_water st <= 1)%nat ->
  let st' := loop_body max_concurrent session finished st in
  tasks st' = [] /\
  (List.length (resumption_tokens st') <= 1)%nat /\
  (high_water st' <= 1)%nat.
Proof.
  unfold sequential, loop_body. intros Hseq Hhw.
  destruct (fill_tasks_spec (resumption_tokens st) st eq_refl)
    as (_ & _ & _ & Hl & Hm & Hh & _).
  set (st1 := fill_tasks max_concurrent (resumption_tokens st) st) in *.
  destruct (tasks st1) as [|t ts] eqn:Et.
  - simpl. rewrite Et. simpl in *. repeat split; auto; lia.
  - destruct (asyncio_wait finished (rounds st1) (t :: ts))
      as [done pending] eqn:Ew.
    destruct (asyncio_wait_spec _ _ _ _ Ew) as [Hlen Hne].
    destruct (process_all_spec pending done st1)
      as (new & Hn & Hq & _ & _ & Hh2 & Ht).
    simpl. rewrite Hq, Hh2, Ht, length_app. simpl in *.
    destruct done as [|d ds]; [now elim Hne|].
    simpl in *. destruct pending; simpl in *; [|lia].
    repeat split; auto; lia.
Qed.


Lemma queue_of_first (o : option token) :
  (if truthy o then match o with Some t => [t] | None => [] end else []) =
  queue_of o.
Proof. destruct o as [t|]; reflexivity. Qed.

Lemma first_batch_spec (st0 : state) :
  first_batch session = Some st0 ->
  exists xml,
    fetch session 0 None = Some xml /\ truthy_str xml = true /\
    all_records st0 = fst (extract_records_value xml) /\
    resumption_tokens st0 = queue_of (snd (extract_records_value xml)) /\
    discovered st0 = resumption_tokens st0 /\
    tasks st0 = [] /\ dispatched st0 = [] /\ calls st0 = 1%nat /\
    high_water st0 = 0%nat.
Proof.
  unfold first_batch.
  destruct (fetch session 0 None) as [xml|]; simpl; [|discriminate].
  destruct (truthy_str xml) eqn:E; simpl; [|discriminate].
  destruct (extract_records_value xml) as [recs tok] eqn:Ex.
  intros [= <-]. exists xml. rewrite Ex. simpl. rewrite queue_of_first.
  repeat split; auto.
Qed.

Lemma first_batch_invariant (st0 : state) :
  first_batch session = Some st0 -> run_invariant max_concurrent st0.
Proof.
  intros H. destruct (first_batch_spec st0 H)
    as (xml & _ & _ & _ & Hq & Hd & Ht & Hp & _ & Hh).
  unfold run_invariant, accounted, within_ceiling.
  rewrite Ht, Hh, Hd, Hp, Hq. simpl.
  repeat split; try lia.
  destruct (snd (extract_records_value xml)) as [t|]; simpl; [|lia].
  destruct (truthy_str t); simpl; lia.
Qed.

Lemma loop_body_invariant (st : state) :
  run_invariant max_concurrent st ->
  run_invariant max_concurrent
    (loop_body max_concurrent session finished st).
Proof.
  intros (Ht & Hq & Hh & Ha & Hw).
  assert (Hseq : sequential st) by (unfold sequential; rewrite Ht; simpl; lia).
  destruct (loop_body_sequential st Hseq Hh) as (Ht' & Hq' & Hh').
  repeat split; auto.
  - now apply loop_body_accounted.
  - now apply loop_body_within_ceiling.
  - now apply loop_body_within_ceiling.
Qed.

Lemma loop_heads_invariant (fuel : nat) :
  forall st0 s,
    run_invariant max_concurrent st0 ->
    In s (loop_heads max_concurrent session finished fuel st0) ->
    run_invariant max_concurrent s.
Proof.
  induction fuel as [|fuel IH]; intros st0 s Hinv; simpl.
  - destruct (resumption_tokens st0); simpl; intros [<-|[]]; exact Hinv.
  - destruct (resumption_tokens st0); simpl.
    + intros [<-|[]]; exact Hinv.
    + intros [<-|Hin]; [exact Hinv|].
      apply (IH _ _ (loop_body_invariant _ Hinv) Hin).
Qed.

Lemma harvest_loop_invariant (fuel : nat) :
  forall st0 st,
    run_invariant max_concurrent st0 ->
    harvest_loop max_concurrent session finished fuel st0 = Some st ->
    run_invariant max_concurrent st /\ resumption_tokens st = [].
Proof.
  induction fuel as [|fuel IH]; intros st0 st Hinv; simpl.
  - destruct (resumption_tokens st0) eqn:E; [|discriminate].
    intros [= <-]. auto.
  - destruct (resumption_tokens st0) eqn:E.
    + intros [= <-]. auto.
    + apply IH, loop_body_invariant, Hinv.
Qed.

Lemma gather_remaining_idle (st : state) :
  tasks st = [] -> gather_remaining session st = st.
Proof. unfold gather_remaining. now intros ->. Qed.

(** The state in which a run ends satisfies the loop invariant and has an
    empty queue. *)
Lemma harvest_run_final (fuel : nat) (st : state) :
  harvest_run max_concurrent session finished fuel = Some (Some st) ->
  run_invariant max_concurrent st /\ resumption_tokens st = [].
Proof.
  unfold harvest_run.
  destruct (first_batch session) as [st0|] eqn:E0; [|discriminate].
  destruct (harvest_loop max_concurrent session finished fuel st0)
    as [st1|] eqn:E1; [|discriminate].
  intros [= <-].
  destruct (harvest_loop_invariant fuel st0 st1
              (first_batch_invariant st0 E0) E1) as [Hinv Hq].
  destruct Hinv as (Ht & Hrest).
  rewrite (gather_remaining_idle st1 Ht). repeat split; auto; apply Hrest.
Qed.

End Facts.

(** C10.  A response carries at most one resumption token, so for every
    ceiling, source and scheduler, at each head of the outer loop the tasks
    in flight and the queued tokens number at most one together, and no
    more than one task has ever been in flight at a time. *)
Theorem harvest_is_sequential {lxml : Lxml} (max_concurrent : Z)
    (session : nat -> option token -> nat -> result response)
    (finished : nat -> task -> bool) (fuel : nat) (st0 s : state) :
  first_batch session = Some st0 ->
  In s (loop_heads max_concurrent session finished fuel st0) ->
  (List.length (tasks s) + List.length (resumption_tokens s) <= 1)%nat /\
  (high_water s <= 1)%nat.
Proof.
  intros H0 Hin.
  destruct (loop_heads_invariant max_concurrent session finished fuel st0 s
              (first_batch_invariant max_concurrent session st0 H0) Hin)
    as (Ht & Hq & Hh & _).
  rewrite Ht. simpl. auto.
Qed.

Lemma harvest_is_sequential_witness :
  exists st0 s,
    first_batch (lxml := Examples.toy_lxml) Examples.chain_source = Some st0 /\
    In s (loop_heads (lxml := Examples.toy_lxml) 8 Examples.chain_source
            Examples.nobody 3 st0) /\
    rounds s = 2%nat /\
    (List.length (tasks s) + List.length (resumption_tokens s) <= 1)%nat /\
    (high_water s <= 1)%nat.
Proof.
  eexists. eexists.
  split; [vm_compute; reflexivity|].
  split; [vm_compute; right; right; left; reflexivity|].
  split; [reflexivity|].
  eapply (harvest_is_sequential (lxml := Examples.toy_lxml) 8
            Examples.chain_source Examples.nobody 3).
  - vm_compute; reflexivity.
  - vm_compute; right; right; left; reflexivity.
Defined.

Section Chain.
Context {lxml : Lxml}.
Variable max_concurrent : Z.
Variable session : nat -> option token -> nat -> result response.
Variable finished : nat -> task -> bool.
Hypothesis ceiling_positive : 1 <= max_concurrent.

(** With a single token queued and nothing in flight, an iteration starts
    that token's task, waits for it and merges its response. *)
Lemma loop_body_single (st : state) (t : token) :
  tasks st = [] ->
  resumption_tokens st = [t] ->
  loop_body max_concurrent session finished st =
  next_round
    (set_tasks []
       (merge_response true (fetch session (calls st) (Some t))
          (create_task t [] st))).
Proof.
  intros Ht Hq. unfold loop_body. rewrite Hq. simpl fill_tasks.
  rewrite Ht. simpl List.length.
  replace (Z.of_nat 0 <? max_concurrent) with true
    by (symmetry; apply Z.ltb_lt; lia).
  unfold create_task at 1 2. rewrite Ht. simpl tasks.
  unfold asyncio_wait. rewrite !Ht. simpl app. simpl filter.
  match goal with
  | |- context [finished ?n ?x] => destruct (finished n x); reflexivity
  end.
Qed.

Lemma merge_queue (o : option token) :
  match o with
  | Some t => if truthy_str t && true then [] ++ [t] else []
  | None => []
  end = queue_of o.
Proof.
  destruct o as [t|]; [|reflexivity]. simpl.
  now destruct (truthy_str t).
Qed.

(** The iteration that fetches a batch the source serves. *)
Lemma loop_body_served (st : state) (b : batch) (nt : option token) :
  tasks st = [] ->
  resumption_tokens st = [b_token b] ->
  truthy_str (b_payload b) = true ->
  fetch session (calls st) (Some (b_token b)) = Some (b_payload b) ->
  extract_records_value (b_payload b) = (b_records b, nt) ->
  let st' := loop_body max_concurrent session finished st in
  tasks st' = [] /\
  resumption_tokens st' = queue_of nt /\
  all_records st' = all_records st ++ b_records b /\
  dispatched st' = dispatched st ++ [b_token b] /\
  calls st' = S (calls st).
Proof.
  intros Ht Hq Hp Hf He. cbv zeta.
  rewrite (loop_body_single st (b_token b) Ht Hq), Hf.
  unfold merge_response. rewrite Hp, He. simpl.
  rewrite merge_queue. auto.
Qed.

(** The iteration whose fetch comes back empty-handed. *)
Lemma loop_body_failed (st : state) (t : token) :
  tasks st = [] ->
  resumption_tokens st = [t] ->
  truthy (fetch session (calls st) (Some t)) = false ->
  let st' := loop_body max_concurrent session finished st in
  tasks st' = [] /\
  resumption_tokens st' = [] /\
  all_records st' = all_records st /\
  dispatched st' = dispatched st ++ [t] /\
  calls st' = S (calls st).
Proof.
  intros Ht Hq Hf. cbv zeta.
  rewrite (loop_body_single st t Ht Hq).
  unfold merge_response.
  destruct (fetch session (calls st) (Some t)) as [xml|]; simpl in *.
  - rewrite Hf. simpl. auto.
  - auto.
Qed.

(** Following a served chain: after one iteration per batch the engine has
    merged every batch and holds the token the last payload carried. *)
Lemma harvest_loop_follows_chain (last : option token) (bs : list batch) :
  forall st,
    tasks st = [] ->
    resumption_tokens st = queue_of (next_token bs last) ->
    serves session (calls st) bs last ->
    exists st',
      (forall fuel,
         harvest_loop max_concurrent session finished
           (List.length bs + fuel) st =
         harvest_loop max_concurrent session finished fuel st') /\
      tasks st' = [] /\
      resumption_tokens st' = queue_of last /\
      all_records st' = all_records st ++ List.concat (map b_records bs) /\
      dispatched st' = dispatched st ++ map b_token bs /\
      calls st' = (calls st + List.length bs)%nat.
Proof.
  induction bs as [|b rest IH]; intros st Ht Hq Hs.
  - exists st. simpl in *. rewrite !app_nil_r, Nat.add_0_r.
    repeat split; auto.
  - simpl in Hq, Hs. destruct Hs as (Htok & Hp & Hf & He & Hs).
    rewrite Htok in Hq.
    destruct (loop_body_served st b _ Ht Hq Hp Hf He)
      as (Ht1 & Hq1 & Ha1 & Hd1 & Hc1).
    set (st1 := loop_body max_concurrent session finished st) in *.
    destruct (IH st1 Ht1 Hq1) as (st' & Hrun & Ht' & Hq' & Ha' & Hd' & Hc').
    { rewrite Hc1. exact Hs. }
    exists st'. split.
    + intros fuel. simpl. rewrite Hq. apply Hrun.
    + rewrite Ha', Hd', Hc', Ha1, Hd1, Hc1. simpl.
      rewrite <- !app_assoc. repeat split; auto; lia.
Qed.

End Chain.

Lemma harvest_loop_exit {lxml : Lxml} (max_concurrent : Z)
    (session : nat -> option token -> nat -> result response)
    (finished : nat -> task -> bool) (fuel : nat) (st : state) :
  resumption_tokens st = [] ->
  harvest_loop max_concurrent session finished fuel st = Some st.
Proof. intros H. destruct fuel; simpl; now rewrite H. Qed.

Lemma harvest_loop_step {lxml : Lxml} (max_concurrent : Z)
    (session : nat -> option token -> nat -> result response)
    (finished : nat -> task -> bool) (fuel : nat) (st : state) t q :
  resumption_tokens st = t :: q ->
  harvest_loop max_concurrent session finished (S fuel) st =
  harvest_loop max_concurrent session finished fuel
    (loop_body max_concurrent session finished st).
Proof. intros H. simpl. now rewrite H. Qed.

(** Without a positive ceiling nothing is ever dispatched: a run with a
    token to fetch spins in the outer loop for ever. *)
Lemma harvest_loop_stalls {lxml : Lxml} (max_concurrent : Z)
    (session : nat -> option token -> nat -> result response)
    (finished : nat -> task -> bool) :
  max_concurrent <= 0 ->
  forall fuel st,
    tasks st = [] ->
    resumption_tokens st <> [] ->
    harvest_loop max_concurrent session finished fuel st = None.
Proof.
  intros Hmc. induction fuel as [|fuel IH]; intros st Ht Hq; simpl.
  - now destruct (resumption_tokens st).
  - destruct (resumption_tokens st) as [|t q] eqn:E; [congruence|].
    assert (Hb : loop_body max_concurrent session finished st =
                 next_round st).
    { unfold loop_body. rewrite E. simpl fill_tasks. rewrite Ht.
      replace (Z.of_nat (List.length (@nil task)) <? max_concurrent)
        with false by (symmetry; apply Z.ltb_ge; simpl; lia).
      now rewrite Ht. }
    rewrite Hb. apply IH; simpl; [exact Ht|].
    rewrite E. discriminate.
Qed.

(** A call whose every attempt fails comes back with no payload. *)
Lemma fetch_none_when_every_attempt_fails
    (session : nat -> option token -> nat -> result response)
    (id : nat) (params : option token) :
  (forall i, succeeds (session id params i) = None) ->
  fetch session id params = None.
Proof.
  intros H. unfold fetch.
  apply (RetryFacts.fetch_records_gives_up (session id params) 3); [lia|].
  exact H.
Qed.

Lemma first_batch_served {lxml : Lxml}
    (session : nat -> option token -> nat -> result response)
    (xml0 : string) (r0 : list record_data) (nt : option token) :
  fetch session 0 None = Some xml0 ->
  truthy_str xml0 = true ->
  extract_records_value xml0 = (r0, nt) ->
  exists st0,
    first_batch session = Some st0 /\
    all_records st0 = r0 /\ resumption_tokens st0 = queue_of nt /\
    tasks st0 = [] /\ dispatched st0 = [] /\ calls st0 = 1%nat.
Proof.
  intros Hf Hp He. unfold first_batch. rewrite Hf. simpl. rewrite Hp, He.
  simpl. eexists. split; [reflexivity|]. simpl. rewrite queue_of_first.
  repeat split; auto.
Qed.

(** C5.  With a ceiling of at least one, the number of fetch tasks in
    flight never exceeds [max_concurrent] at any point of any run, and a
    chain whose tokens are revealed one at a time, each by the response
    before it, is drained to its end: every batch is fetched once, in
    order, and all its records are accumulated. *)
Theorem chained_mode_bounded_and_drained {lxml : Lxml} (max_concurrent : Z)
    (session : nat -> option token -> nat -> result response)
    (finished : nat -> task -> bool)
    (xml0 : string) (r0 : list record_data) (bs : list batch) :
  1 <= max_concurrent ->
  fetch session 0 None = Some xml0 ->
  truthy_str xml0 = true ->
  extract_records_value xml0 = (r0, next_token bs None) ->
  serves session 1 bs None ->
  (forall fuel st0 s,
      first_batch session = Some st0 ->
      In s (loop_heads max_concurrent session finished fuel st0) ->
      Z.of_nat (List.length (tasks s)) <= max_concurrent /\
      Z.of_nat (high_water s) <= max_concurrent) /\
  exists st,
    harvest_run max_concurrent session finished (List.length bs) =
      Some (Some st) /\
    all_records st = r0 ++ List.concat (map b_records bs) /\
    dispatched st = map b_token bs /\
    tasks st = [] /\ resumption_tokens st = [] /\
    Z.of_nat (high_water st) <= max_concurrent.
Proof.
  intros Hmc Hf Hp He Hs. split.
  - intros fuel st0 s H0 Hin.
    destruct (loop_heads_invariant max_concurrent session finished fuel st0 s
                (first_batch_invariant max_concurrent session st0 H0) Hin)
      as (_ & _ & _ & _ & Hw1 & Hw2).
    lia.
  - destruct (first_batch_served session xml0 r0 _ Hf Hp He)
      as (st0 & H0 & Ha0 & Hq0 & Ht0 & Hd0 & Hc0).
    destruct (harvest_loop_follows_chain max_concurrent session finished Hmc
                None bs st0 Ht0 Hq0)
      as (st & Hrun & Ht & Hq & Ha & Hd & Hc).
    { rewrite Hc0. exact Hs. }
    assert (Hfin : harvest_run max_concurrent session finished
                     (List.length bs) = Some (Some st)).
    { unfold harvest_run. rewrite H0.
      specialize (Hrun 0%nat). rewrite Nat.add_0_r in Hrun. rewrite Hrun.
      rewrite (harvest_loop_exit _ _ _ _ _ Hq).
      now rewrite (gather_remaining_idle session st Ht). }
    exists st. split; [exact Hfin|].
    rewrite Ha, Hd, Ha0, Hd0. simpl in Hq. repeat split; auto.
    destruct (harvest_run_final max_concurrent session finished _ _ Hfin)
      as [(_ & _ & _ & _ & _ & Hw) _].
    lia.
Qed.

Lemma chained_mode_bounded_and_drained_witness :
  (forall fuel st0 s,
      first_batch (lxml := Examples.toy_lxml) Examples.chain_source
        = Some st0 ->
      In s (loop_heads (lxml := Examples.toy_lxml) 3 Examples.chain_source
              Examples.nobody fuel st0) ->
      Z.of_nat (List.length (tasks s)) <= 3 /\
      Z.of_nat (high_water s) <= 3) /\
  exists st,
    harvest_run (lxml := Examples.toy_lxml) 3 Examples.chain_source
      Examples.nobody 3 = Some (Some st) /\
    all_records st =
      [Examples.rec_of "r0"; Examples.rec_of "r1"] ++
      List.concat (map b_records Examples.chain_batches) /\
    dispatched st = ["t1"; "t2"; "t3"] /\
    tasks st = [] /\ resumption_tokens st = [] /\
    Z.of_nat (high_water st) <= 3.
Proof.
  apply (chained_mode_bounded_and_drained (lxml := Examples.toy_lxml) 3
           Examples.chain_source Examples.nobody "b0"
           [Examples.rec_of "r0"; Examples.rec_of "r1"]
           Examples.chain_batches).
  - lia.
  - reflexivity.
  - reflexivity.
  - reflexivity.
  - vm_compute. repeat split.
Defined.

(** C4.  When the fetch of a batch in the middle of a chain gives up and
    returns no payload, the run still ends normally: it returns the records
    of the batches before the failed one and nothing else.  The failed
    batch's records and the token its payload carried are lost, no fetch is
    started after it, and the returned list bears no mark of the failure. *)
Theorem failed_batch_truncates_chain {lxml : Lxml} (max_concurrent : Z)
    (session : nat -> option token -> nat -> result response)
    (finished : nat -> task -> bool)
    (xml0 : string) (r0 : list record_data) (bs : list batch) (t : token) :
  1 <= max_concurrent ->
  fetch session 0 None = Some xml0 ->
  truthy_str xml0 = true ->
  extract_records_value xml0 = (r0, next_token bs (Some t)) ->
  serves session 1 bs (Some t) ->
  truthy_str t = true ->
  fetch session (S (List.length bs)) (Some t) = None ->
  harvest_records_async max_concurrent session finished
    (S (List.length bs)) = Some (r0 ++ List.concat (map b_records bs)) /\
  exists st,
    harvest_run max_concurrent session finished (S (List.length bs)) =
      Some (Some st) /\
    dispatched st = map b_token bs ++ [t] /\
    calls st = (List.length bs + 2)%nat /\
    tasks st = [] /\ resumption_tokens st = [].
Proof.
  intros Hmc Hf Hp He Hs Ht Hfail.
  destruct (first_batch_served session xml0 r0 _ Hf Hp He)
    as (st0 & H0 & Ha0 & Hq0 & Ht0 & Hd0 & Hc0).
  destruct (harvest_loop_follows_chain max_concurrent session finished Hmc
              (Some t) bs st0 Ht0 Hq0)
    as (st1 & Hrun & Ht1 & Hq1 & Ha1 & Hd1 & Hc1).
  { rewrite Hc0. exact Hs. }
  simpl in Hq1. rewrite Ht in Hq1.
  destruct (loop_body_failed max_concurrent session finished Hmc st1 t
              Ht1 Hq1) as (Ht2 & Hq2 & Ha2 & Hd2 & Hc2).
  { rewrite Hc1, Hc0. simpl. now rewrite Hfail. }
  set (st2 := loop_body max_concurrent session finished st1) in *.
  assert (Hfin : harvest_run max_concurrent session finished
                   (S (List.length bs)) = Some (Some st2)).
  { unfold harvest_run. rewrite H0.
    replace (S (List.length bs)) with (List.length bs + 1)%nat by lia.
    rewrite (Hrun 1%nat).
    rewrite (harvest_loop_step _ _ _ _ _ _ _ Hq1). fold st2.
    rewrite (harvest_loop_exit _ _ _ _ _ Hq2).
    now rewrite (gather_remaining_idle session st2 Ht2). }
  split.
  - unfold harvest_records_async. rewrite Hfin.
    now rewrite Ha2, Ha1, Ha0.
  - exists st2. split; [exact Hfin|].
    rewrite Hd2, Hd1, Hd0, Hc2, Hc1, Hc0. simpl.
    repeat split; auto; lia.
Qed.

Lemma failed_batch_truncates_chain_witness :
  harvest_records_async (lxml := Examples.toy_lxml) 3
    Examples.broken_source Examples.nobody 2 =
    Some ([Examples.rec_of "r0"; Examples.rec_of "r1"] ++
          [Examples.rec_of "r2"; Examples.rec_of "r3"] ++ []) /\
  exists st,
    harvest_run (lxml := Examples.toy_lxml) 3 Examples.broken_source
      Examples.nobody 2 = Some (Some st) /\
    dispatched st = ["t1"; "t2"] /\
    calls st = 3%nat /\
    tasks st = [] /\ resumption_tokens st = [].
Proof.
  apply (failed_batch_truncates_chain (lxml := Examples.toy_lxml) 3
           Examples.broken_source Examples.nobody "b0"
           [Examples.rec_of "r0"; Examples.rec_of "r1"]
           [mkBatch "t1" "b1" [Examples.rec_of "r2"; Examples.rec_of "r3"]]
           "t2").
  - lia.
  - reflexivity.
  - reflexivity.
  - reflexivity.
  - vm_compute. repeat split.
  - reflexivity.
  - reflexivity.
Defined.

End HarvestFacts.

(** ** The engine follows the tokens that the answers yield *)

Module HarvestAnswers.
Import Retry Extract Harvest Answers.

Section Facts.
Context {lxml : Lxml}.
Variable max_concurrent : Z.
Variable session : nat -> option token -> nat -> result response.
Variable finished : nat -> task -> bool.

(** Merging the answer to a call appends the token it yields to the queue
    and its records to the result. *)
Lemma merge_response_answer (id : nat) (params : option token) (st : state) :
  let st' := merge_response true (fetch session id params) st in
  resumption_tokens st' =
    resumption_tokens st ++ queued (yielded session id params) /\
  all_records st' = all_records st ++ batch_of session id params /\
  tasks st' = tasks st /\
  dispatched st' = dispatched st /\
  calls st' = calls st.
Proof.
  unfold merge_response, yielded, batch_of, answer.
  destruct (fetch session id params) as [xml|]; simpl;
    [|rewrite !app_nil_r; auto].
  destruct (truthy_str xml); simpl; [|rewrite !app_nil_r; auto].
  destruct (extract_records_value xml) as [recs [t|]]; simpl.
  - destruct (truthy_str t); simpl; rewrite ?app_nil_r; auto.
  - rewrite app_nil_r; auto.
Qed.

Lemma batches_of_app (toks : list token) :
  forall id t,
    batches_of session id (toks ++ [t]) =
    batches_of session id toks ++
    batch_of session (id + List.length toks) (Some t).
Proof.
  induction toks as [|a toks IH]; intros id t; simpl.
  - now rewrite app_nil_r, Nat.add_0_r.
  - rewrite IH, <- app_assoc. simpl. now rewrite Nat.add_succ_r.
Qed.

Lemma nth_error_queued (o : option token) : nth_error (queued o) 0 = o.
Proof. now destruct o. Qed.

Lemma length_queued (o : option token) : (List.length (queued o) <= 1)%nat.
Proof. destruct o; simpl; lia. Qed.

(** The state after the first batch follows the answers. *)
Lemma first_batch_follows (st0 : state) :
  first_batch session = Some st0 -> follows_answers session st0.
Proof.
  intros H.
  destruct (HarvestFacts.first_batch_spec session st0 H)
    as (xml & Hf & Hp & Ha & Hq & _ & Ht & Hd & Hc & _).
  assert (Hy : resumption_tokens st0 = queued (yielded session 0 None)).
  { rewrite Hq. unfold yielded, answer. rewrite Hf, Hp.
    unfold queue_of.
    destruct (extract_records_value xml) as [recs [t|]]; simpl;
      [now destruct (truthy_str t)|reflexivity]. }
  unfold follows_answers. rewrite Ht, Hd, Hc, Ha, Hy. simpl.
  split; [reflexivity|]. split; [apply length_queued|].
  split; [reflexivity|]. split.
  { unfold batch_of, answer. rewrite Hf, Hp. now rewrite app_nil_r. }
  split; [apply nth_error_queued|].
  intros [|k] tok; discriminate.
Qed.

(** One iteration with a token queued dispatches it, and what the call
    made for it yields is queued in turn. *)
Lemma loop_body_follows (st : state) (t : token) :
  1 <= max_concurrent ->
  follows_answers session st ->
  resumption_tokens st = [t] ->
  follows_answers session (loop_body max_concurrent session finished st).
Proof.
  intros Hmc (Ht & _ & Hc & Ha & H0 & Hk) Hq.
  rewrite (HarvestFacts.loop_body_single max_concurrent session finished
             Hmc st t Ht Hq).
  destruct (merge_response_answer (calls st) (Some t) (create_task t [] st))
    as (Hq' & Ha' & _ & Hd' & Hc').
  cbv zeta in Hq', Ha', Hd', Hc'.
  rewrite Hq in H0, Hk.
  unfold follows_answers.
  cbn [next_round set_tasks tasks resumption_tokens calls all_records
       dispatched].
  rewrite Hq', Ha', Hd', Hc'. clear Hq' Ha' Hd' Hc'.
  cbn [create_task tasks resumption_tokens calls all_records dispatched app].
  remember (dispatched st) as d eqn:Ed.
  remember (yielded session (calls st) (Some t)) as y eqn:Ey.
  split; [reflexivity|]. split; [apply length_queued|].
  split; [rewrite length_app; simpl; lia|].
  split.
  { rewrite Ha, batches_of_app, <- app_assoc. do 2 f_equal.
    rewrite Hc. reflexivity. }
  split.
  { rewrite <- H0. apply nth_error_app1. rewrite length_app. simpl. lia. }
  intros k tok Hnth.
  assert (Hlt : (k < List.length (d ++ [t]))%nat)
    by (apply nth_error_Some; congruence).
  rewrite length_app in Hlt. simpl in Hlt.
  destruct (Nat.eq_dec k (List.length d)) as [->|Hne].
  - rewrite nth_error_app2 in Hnth by lia.
    rewrite Nat.sub_diag in Hnth. simpl in Hnth. injection Hnth as <-.
    rewrite nth_error_app2 by (rewrite length_app; simpl; lia).
    replace (S (List.length d) - List.length (d ++ [t]))%nat with 0%nat
      by (rewrite length_app; cbn [List.length]; lia).
    rewrite nth_error_queued. rewrite Ey. now rewrite Hc.
  - rewrite nth_error_app1 in Hnth by lia.
    rewrite <- (Hk k tok Hnth).
    apply nth_error_app1. rewrite length_app. simpl. lia.
Qed.

(** The outer loop, when it exits, has followed the answers to the end. *)
Lemma harvest_loop_follows (fuel : nat) :
  forall st st',
    follows_answers session st ->
    harvest_loop max_concurrent session finished fuel st = Some st' ->
    follows_answers session st' /\ resumption_tokens st' = [].
Proof.
  induction fuel as [|fuel IH]; intros st st' Hinv Hrun.
  - simpl in Hrun. destruct (resumption_tokens st) eqn:E; [|discriminate].
    injection Hrun as <-. auto.
  - destruct (resumption_tokens st) as [|t q] eqn:E.
    + simpl in Hrun. rewrite E in Hrun. injection Hrun as <-. auto.
    + destruct (Z_le_gt_dec max_concurrent 0) as [Hle|Hgt].
      * assert (Ht : tasks st = []) by apply Hinv.
        rewrite (HarvestFacts.harvest_loop_stalls max_concurrent session
                   finished Hle (S fuel) st Ht) in Hrun
          by (rewrite E; discriminate).
        discriminate.
      * assert (Hq : q = []).
        { destruct Hinv as (_ & Hl & _). rewrite E in Hl.
          destruct q; [reflexivity|simpl in Hl; lia]. }
        subst q.
        rewrite (HarvestFacts.harvest_loop_step _ _ _ _ _ _ _ E) in Hrun.
        apply (IH _ _ (loop_body_follows st t ltac:(lia) Hinv E) Hrun).
Qed.

End Facts.

(** C1.  Whatever the ceiling, the source and the scheduler, a chained-mode
    run that terminates ends with an empty token queue and no fetch task in
    flight, and by then every token that an answer yielded has been
    appended and dispatched, in the order of the answers: the token of the
    first answer is the first one dispatched, the token of the answer to
    the call made for a dispatched token is the one dispatched next, and
    dispatching stops only at an answer that yields none.  One call was
    made for each token, and the result holds the records of exactly these
    answers. *)
Theorem harvest_dispatches_every_yielded_token {lxml : Lxml}
    (max_concurrent : Z)
    (session : nat -> option token -> nat -> result response)
    (finished : nat -> task -> bool) (fuel : nat) (st : state) :
  harvest_run max_concurrent session finished fuel = Some (Some st) ->
  resumption_tokens st = [] /\
  tasks st = [] /\
  nth_error (dispatched st) 0 = yielded session 0 None /\
  (forall k tok,
     nth_error (dispatched st) k = Some tok ->
     nth_error (dispatched st) (S k) = yielded session (S k) (Some tok)) /\
  calls st = S (List.length (dispatched st)) /\
  all_records st =
    batch_of session 0 None ++ batches_of session 1 (dispatched st) /\
  dispatched st = discovered st.
Proof.
  intros H.
  destruct (HarvestFacts.harvest_run_final max_concurrent session finished
              fuel st H) as [(_ & _ & _ & Hacc & _) Hq0].
  unfold accounted in Hacc. rewrite Hq0, app_nil_r in Hacc.
  revert H. unfold harvest_run.
  destruct (first_batch session) as [st0|] eqn:E0; [|discriminate].
  destruct (harvest_loop max_concurrent session finished fuel st0)
    as [st1|] eqn:E1; [|discriminate].
  intros [= <-].
  destruct (harvest_loop_follows max_concurrent session finished fuel st0 st1
              (first_batch_follows session st0 E0) E1)
    as [(Ht & _ & Hc & Ha & H0 & Hk) Hq].
  rewrite (HarvestFacts.gather_remaining_idle session st1 Ht) in *.
  rewrite Hq, app_nil_r in H0, Hk.
  repeat (split; [assumption|]). now symmetry.
Qed.

Lemma harvest_dispatches_every_yielded_token_witness :
  exists st,
    harvest_run (lxml := Examples.toy_lxml) 3 Examples.chain_source
      Examples.nobody 3 = Some (Some st) /\
    dispatched st = ["t1"; "t2"; "t3"] /\
    yielded (lxml := Examples.toy_lxml) Examples.chain_source 0 None =
      Some "t1" /\
    yielded (lxml := Examples.toy_lxml) Examples.chain_source 3 (Some "t3") =
      None /\
    resumption_tokens st = [] /\
    tasks st = [] /\
    nth_error (dispatched st) 0 =
      yielded (lxml := Examples.toy_lxml) Examples.chain_source 0 None /\
    (forall k tok,
       nth_error (dispatched st) k = Some tok ->
       nth_error (dispatched st) (S k) =
       yielded (lxml := Examples.toy_lxml) Examples.chain_source (S k)
         (Some tok)) /\
    calls st = S (List.length (dispatched st)) /\
    all_records st =
      batch_of (lxml := Examples.toy_lxml) Examples.chain_source 0 None ++
      batches_of (lxml := Examples.toy_lxml) Examples.chain_source 1
        (dispatched st) /\
    dispatched st = discovered st.
Proof.
  eexists. split; [vm_compute; reflexivity|].
  split; [vm_compute; reflexivity|].
  split; [vm_compute; reflexivity|].
  split; [vm_compute; reflexivity|].
  apply (harvest_dispatches_every_yielded_token (lxml := Examples.toy_lxml) 3
           Examples.chain_source Examples.nobody 3).
  vm_compute; reflexivity.
Defined.

End HarvestAnswers.

(** ** The paginated scraper *)

Module ScrapeFacts.
Import Scrape.

Lemma Qeq_bool_inject_Z (n : Z) : n <> 0 -> Qeq_bool (inject_Z n) 0 = false.
Proof.
  intros Hn. destruct (Qeq_bool (inject_Z n) 0) eqn:E; [|reflexivity].
  apply Qeq_bool_iff in E. unfold Qeq in E. simpl in E. lia.
Qed.

Lemma truediv_nonzero (a : Q) (n : Z) :
  n <> 0 -> truediv a (inject_Z n) = Ret (a / inject_Z n)%Q.
Proof. intros Hn. unfold truediv. now rewrite Qeq_bool_inject_Z. Qed.

Lemma effective_parallelism_positive (pages_remaining : Z) :
  1 <= effective_parallelism pages_remaining.
Proof.
  unfold effective_parallelism, MAX_WORKERS.
  destruct (0 <? pages_remaining) eqn:E; [apply Z.ltb_lt in E|]; lia.
Qed.

Lemma eta_seconds_value (t : Q) (times : list Q)
    (total_pages completed_pages : Z) :
  eta_seconds (t :: times) total_pages completed_pages =
  Ret (Some
         (sum (t :: times) /
            inject_Z (Z.of_nat (List.length (t :: times))) *
          inject_Z (total_pages - completed_pages) /
          inject_Z (effective_parallelism (total_pages - completed_pages)))%Q).
Proof.
  unfold eta_seconds.
  rewrite truediv_nonzero by (simpl List.length; lia).
  cbn [bind].
  rewrite truediv_nonzero.
  - reflexivity.
  - pose proof (effective_parallelism_positive
                  (total_pages - completed_pages)). lia.
Qed.

Lemma eta_seconds_returns (times : list Q) (total_pages completed_pages : Z) :
  exists eta, eta_seconds times total_pages completed_pages = Ret eta.
Proof.
  destruct times as [|t times].
  - now exists None.
  - eexists. apply eta_seconds_value.
Qed.

Lemma remove_nth_perm {A} (d : A) :
  forall (l : list A) (i : nat),
    (i < List.length l)%nat ->
    Permutation l (nth i l d :: firstn i l ++ skipn (S i) l).
Proof.
  induction l as [|a l IH]; intros i Hi; simpl in Hi; [lia|].
  destruct i as [|i].
  - simpl. apply Permutation_refl.
  - simpl. eapply perm_trans.
    + apply perm_skip. apply (IH i). lia.
    + apply perm_swap.
Qed.

Lemma as_completed_from_perm (completes : nat -> nat) :
  forall (n k : nat) (futures : list Z),
    List.length futures = n ->
    Permutation (as_completed_from completes k n futures) futures.
Proof.
  induction n as [|n IH]; intros k futures Hlen.
  - destruct futures; [apply perm_nil | discriminate].
  - destruct futures as [|f0 rest]; [discriminate|].
    cbn [as_completed_from].
    remember (f0 :: rest) as l eqn:El.
    remember (completes k mod List.length l)%nat as i eqn:Ei.
    assert (Hi : (i < List.length l)%nat).
    { rewrite Ei. apply Nat.mod_upper_bound. rewrite Hlen. lia. }
    apply Permutation_sym. eapply perm_trans.
    + apply (remove_nth_perm f0 l i Hi).
    + apply perm_skip, Permutation_sym, IH.
      pose proof (Permutation_length (remove_nth_perm f0 l i Hi)) as Hp.
      cbn [List.length] in Hp. lia.
Qed.

Lemma as_completed_perm (completes : nat -> nat) (futures : list Z) :
  Permutation (as_completed completes futures) futures.
Proof. apply as_completed_from_perm. reflexivity. Qed.

Lemma In_pages_to_scrape (total_pages n : Z) :
  In n (pages_to_scrape total_pages) <-> 1 <= n <= total_pages.
Proof.
  unfold pages_to_scrape. rewrite in_map_iff. split.
  - intros (k & <- & Hk). apply in_seq in Hk. lia.
  - intros Hn. exists (Z.to_nat n). split; [lia|]. apply in_seq. lia.
Qed.

Lemma length_pages_to_scrape (total_pages : Z) :
  List.length (pages_to_scrape total_pages) = Z.to_nat total_pages.
Proof. unfold pages_to_scrape. now rewrite length_map, length_seq. Qed.

Lemma length_concat_map {A B} (f : A -> list B) (M : nat) (l : list A) :
  (forall x, In x l -> List.length (f x) = M) ->
  List.length (List.concat (map f l)) = (List.length l * M)%nat.
Proof.
  induction l as [|a l IH]; intros H; simpl; [reflexivity|].
  rewrite length_app, (H a (or_introl eq_refl)).
  rewrite IH; [reflexivity|].
  intros x Hx. apply H. now right.
Qed.

Section Facts.
Context {bs4 : Bs4}.
Variable requests_get : request -> result http_response.
Variable page_time : Z -> Q.
Variable completes : nat -> nat.

(** The unit never lets an exception out. *)
Lemma fetch_and_parse_page_returns (page_num : Z) :
  fetch_and_parse_page requests_get page_num =
  Ret (page_data requests_get page_num).
Proof.
  unfold page_data, fetch_and_parse_page, try_except.
  match goal with |- context [match ?b with _ => _ end] => destruct b as [d|e] end;
    [reflexivity|].
  destruct (is_requests_timeout e), (is_request_exception e); reflexivity.
Qed.

(** What the parser raises leaves [extract_publication_data] unhandled. *)
Lemma extract_publication_data_propagates (html_content : string) (e : exn) :
  BeautifulSoup html_content = Raise e ->
  extract_publication_data html_content = Raise e.
Proof. intros H. unfold extract_publication_data. now rewrite H. Qed.

Lemma on_completed_spec (total_pages : Z) (st : state) (page_num : Z) :
  let st' := on_completed requests_get page_time total_pages st page_num in
  all_publications_data st' =
    all_publications_data st ++ page_data requests_get page_num /\
  completed_pages st' = completed_pages st + 1 /\
  pbar_n st' = pbar_n st + 1 /\
  unhandled st' = unhandled st.
Proof.
  unfold on_completed. rewrite fetch_and_parse_page_returns.
  destruct (eta_seconds_returns
              (processing_times st ++ [page_time page_num]) total_pages
              (completed_pages st + 1)) as [eta ->].
  simpl. auto.
Qed.

Lemma fold_on_completed (total_pages : Z) (pages : list Z) :
  forall st,
    let st' :=
      fold_left (on_completed requests_get page_time total_pages) pages st in
    all_publications_data st' =
      all_publications_data st ++
      List.concat (map (page_data requests_get) pages) /\
    completed_pages st' = completed_pages st + Z.of_nat (List.length pages) /\
    pbar_n st' = pbar_n st + Z.of_nat (List.length pages) /\
    unhandled st' = unhandled st.
Proof.
  induction pages as [|page_num pages IH]; intros st.
  - simpl. rewrite app_nil_r. repeat split; lia.
  - destruct (on_completed_spec total_pages st page_num) as (Ha & Hc & Hp & Hu).
    destruct (IH (on_completed requests_get page_time total_pages st page_num))
      as (Ha' & Hc' & Hp' & Hu').
    cbn [fold_left map List.concat List.length].
    cbv zeta in *. rewrite Ha', Hc', Hp', Hu', Ha, Hc, Hp, Hu, app_assoc.
    repeat split; auto; lia.
Qed.

(** A run whose discovery found pages consumes every future. *)
Lemma main_scrapes (total_pages : Z) :
  get_total_pages requests_get = total_pages ->
  0 < total_pages ->
  exists st,
    main requests_get page_time completes =
      mkRun (Probe :: map Page (pages_to_scrape total_pages)) (Some st) /\
    all_publications_data st =
      List.concat
        (map (page_data requests_get)
           (as_completed completes (pages_to_scrape total_pages))) /\
    completed_pages st = total_pages /\
    pbar_n st = total_pages /\
    unhandled st = [].
Proof.
  intros Hg Hpos. unfold main. rewrite Hg.
  replace (total_pages <=? 0) with false by (symmetry; apply Z.leb_gt; lia).
  eexists. split; [reflexivity|].
  destruct (fold_on_completed total_pages
              (as_completed completes (pages_to_scrape total_pages))
              (mkState [] 0 0 [] None [])) as (Ha & Hc & Hp & Hu).
  cbv zeta in *. rewrite Ha, Hc, Hp, Hu.
  rewrite (Permutation_length (as_completed_perm completes _)).
  rewrite length_pages_to_scrape. simpl.
  repeat split; auto; lia.
Qed.

End Facts.

(** Where parse failures are contained.  The XML extractor
    [extract_records] never raises: when anything in its [try] block fails
    it returns an empty record list and no token.  The HTML extractor
    returns an empty list for a page without result rows; what it raises
    is caught one level up, by [fetch_and_parse_page], which always returns
    and yields an empty list for such a page. *)
Theorem extractors_contain_parse_failures
    {lxml : Extract.Lxml} {bs4 : Bs4}
    (requests_get : request -> result http_response) :
  (forall xml_content,
     exists out,
       Extract.extract_records xml_content = Ret out /\
       (raises (Extract.extract_records_try xml_content) ->
        out = ([], None))) /\
  (forall html_content soup,
     BeautifulSoup html_content = Ret soup ->
     select "div.ubl-resultrow.islandora-solr-search-result" soup = [] ->
     extract_publication_data html_content = Ret []) /\
  (forall page_num,
     exists data,
       fetch_and_parse_page requests_get page_num = Ret data /\
       (forall response,
          requests_get (Page page_num) = Ret response ->
          raise_for_status response = Ret tt ->
          raises (extract_publication_data (text response)) ->
          data = [])).
Proof.
  split; [|split].
  - intros xml_content. exists (Extract.extract_records_value xml_content).
    split; [apply ExtractFacts.extract_records_returns|].
    intros [e He]. unfold Extract.extract_records_value. now rewrite He.
  - intros html_content soup Hs Hr. unfold extract_publication_data.
    rewrite Hs. simpl. now rewrite Hr.
  - intros page_num. exists (page_data requests_get page_num).
    split; [apply fetch_and_parse_page_returns|].
    intros response Hg Hst [e He].
    unfold page_data, fetch_and_parse_page. rewrite Hg. simpl.
    rewrite Hst. simpl. rewrite He. simpl.
    destruct (is_requests_timeout e), (is_request_exception e); reflexivity.
Qed.

Lemma extractors_contain_parse_failures_witness :
  Extract.extract_records (lxml := Examples.toy_lxml) "not xml" =
    Ret ([], None) /\
  fetch_and_parse_page (bs4 := Examples.toy_bs4) Examples.site_flaky 3 =
    Ret [].
Proof.
  destruct (extractors_contain_parse_failures (lxml := Examples.toy_lxml)
              (bs4 := Examples.toy_bs4) Examples.site_flaky)
    as (Hxml & _ & Hpage).
  split.
  - destruct (Hxml "not xml") as (out & Hret & Hout).
    rewrite Hret, Hout; [reflexivity|].
    exists XMLSyntaxError. reflexivity.
  - destruct (Hpage 3) as (data & Hret & Hdata).
    rewrite Hret, (Hdata (mkHttp 200 "<![x]>")); try reflexivity.
    exists ParserRejectedMarkup. reflexivity.
Defined.

(** C3.  The HTML extractor does not do what the claim, and its own
    docstring (an empty list when parsing fails), say of it: it has no
    handler, so on markup that the parser rejects
    [extract_publication_data] raises instead of returning an empty
    list. *)
Lemma extract_publication_data_raises_on_rejected_markup :
  BeautifulSoup (Bs4 := Examples.toy_bs4) "<![x]>" =
    Raise ParserRejectedMarkup /\
  extract_publication_data (bs4 := Examples.toy_bs4) "<![x]>" =
    Raise ParserRejectedMarkup.
Proof. split; reflexivity. Qed.



(** C8.  When discovery found [P] pages and every page is fetched and
    parsed into [M] records, the accumulator ends with [P * M] records,
    [completed_pages] and the progress bar both stand at [P], and no page
    was reported as failed. *)
Theorem finite_mode_accumulates_every_page {bs4 : Bs4}
    (requests_get : request -> result http_response)
    (page_time : Z -> Q) (completes : nat -> nat) (P : Z) (M : nat) :
  1 <= P ->
  get_total_pages requests_get = P ->
  (forall n, 1 <= n <= P ->
     exists response data,
       requests_get (Page n) = Ret response /\
       raise_for_status response = Ret tt /\
       extract_publication_data (text response) = Ret data /\
       List.length data = M) ->
  exists st,
    outcome (main requests_get page_time completes) = Some st /\
    Z.of_nat (List.length (all_publications_data st)) = P * Z.of_nat M /\
    completed_pages st = P /\
    pbar_n st = P /\
    unhandled st = [].
Proof.
  intros HP Hg Hpages.
  destruct (main_scrapes requests_get page_time completes P Hg)
    as (st & Hm & Ha & Hc & Hp & Hu); [lia|].
  exists st. rewrite Hm. simpl. repeat split; auto.
  rewrite Ha, (length_concat_map _ M).
  - rewrite (Permutation_length (as_completed_perm completes _)).
    rewrite length_pages_to_scrape. lia.
  - intros n Hin.
    apply (Permutation_in _ (as_completed_perm completes _)) in Hin.
    apply In_pages_to_scrape in Hin.
    destruct (Hpages n Hin) as (response & data & Hr & Hs & He & Hl).
    unfold page_data, fetch_and_parse_page. rewrite Hr. simpl.
    rewrite Hs. simpl. rewrite He. simpl. exact Hl.
Qed.

Lemma finite_mode_accumulates_every_page_witness :
  exists st,
    outcome (main (bs4 := Examples.toy_bs4) Examples.site
               Examples.millisecond Examples.last_first) = Some st /\
    Z.of_nat (List.length (all_publications_data st)) = 3 * Z.of_nat 2 /\
    completed_pages st = 3 /\
    pbar_n st = 3 /\
    unhandled st = [].
Proof.
  apply (finite_mode_accumulates_every_page (bs4 := Examples.toy_bs4)
           Examples.site Examples.millisecond Examples.last_first 3 2).
  - lia.
  - reflexivity.
  - intros n _. exists (mkHttp 200 "two rows"). eexists.
    repeat split; reflexivity.
Defined.

(** C9, as the code has it.  The estimate is the mean duration times the
    pages remaining, divided by [min(MAX_WORKERS, max(pages_remaining, 1))]:
    the divisor is clamped to at least one, so the division never raises,
    whatever the counters hold, and with no page remaining the divisor is
    1, not 0. *)
Theorem eta_divides_by_clamped_parallelism (t : Q) (times : list Q)
    (total_pages completed_pages : Z) :
  let processing_times := t :: times in
  let avg_time_per_page :=
    (sum processing_times /
       inject_Z (Z.of_nat (List.length processing_times)))%Q in
  let pages_remaining := total_pages - completed_pages in
  eta_seconds processing_times total_pages completed_pages =
    Ret (Some
           (avg_time_per_page * inject_Z pages_remaining /
              inject_Z (Z.min MAX_WORKERS (Z.max pages_remaining 1)))%Q) /\
  1 <= Z.min MAX_WORKERS (Z.max pages_remaining 1).
Proof.
  cbv zeta. rewrite eta_seconds_value.
  assert (He : effective_parallelism (total_pages - completed_pages) =
               Z.min MAX_WORKERS (Z.max (total_pages - completed_pages) 1)).
  { unfold effective_parallelism.
    destruct (0 <? total_pages - completed_pages) eqn:E.
    - apply Z.ltb_lt in E. now rewrite Z.max_l by lia.
    - apply Z.ltb_ge in E. now rewrite Z.max_r by lia. }
  rewrite He. split; [reflexivity|]. unfold MAX_WORKERS. lia.
Qed.

(** C9, as stated, fails: with no page remaining the divisor the code uses
    is 1 while [min(ceiling, remaining_units)] is 0, and the formula of the
    claim divides by zero where the code returns an estimate. *)
Lemma eta_with_unclamped_parallelism_divides_by_zero :
  effective_parallelism 0 = 1 /\
  Z.min MAX_WORKERS 0 = 0 /\
  eta_seconds_spec 1 0 = Raise ZeroDivisionError /\
  eta_seconds [1%Q] 4 4 = Ret (Some (1 / 1 * 0 / 1)%Q).
Proof. repeat split. Qed.

End ScrapeFacts.

(** ** More on the retry policy *)

Module RetryMore.
Import Retry Attempts.

Lemma wait_time_bounds (i : nat) : 1 <= wait_time (Z.of_nat i) <= 30.
Proof.
  unfold wait_time.
  assert (0 < 2 ^ Z.of_nat i) by (apply Z.pow_pos_nonneg; lia).
  lia.
Qed.

(** Every attempt makes its request and sleeps at most once, for the wait
    time of its index. *)
Lemma attempt_trace retry_count (i : nat) got :
  fst (attempt retry_count (Z.of_nat i) got) = [] \/
  fst (attempt retry_count (Z.of_nat i) got) = [Sleep (wait_time (Z.of_nat i))].
Proof.
  destruct (succeeds got) as [body|] eqn:E.
  - left. now rewrite (RetryFacts.attempt_success _ _ _ _ E).
  - destruct (RetryFacts.attempt_not_success retry_count (Z.of_nat i) got E)
      as [[w Hw] | [Hr _]].
    + right. revert Hw. unfold attempt, raise_for_status.
      destruct got as [r|e]; simpl.
      * destruct (status r =? 503); [now intros [= <-]|].
        destruct (400 <=? status r); simpl.
        -- destruct (Z.of_nat i <? retry_count - 1); [reflexivity|discriminate].
        -- destruct (text r) as [b|e]; simpl; [discriminate|].
           destruct (is_asyncio_timeout e); [reflexivity|].
           destruct (Z.of_nat i <? retry_count - 1); [reflexivity|discriminate].
      * destruct (is_asyncio_timeout e); [reflexivity|].
        destruct (Z.of_nat i <? retry_count - 1); [reflexivity|discriminate].
    + left. now rewrite Hr.
Qed.

Lemma fetch_loop_budget get retry_count :
  forall n i,
    (attempts (snd (fetch_loop get retry_count n i)) <= n)%nat /\
    (List.length (sleeps (snd (fetch_loop get retry_count n i))) <=
       attempts (snd (fetch_loop get retry_count n i)))%nat /\
    (forall w, In w (sleeps (snd (fetch_loop get retry_count n i))) ->
               1 <= w <= 30).
Proof.
  induction n as [|n IH]; intros i; simpl.
  - unfold attempts, sleeps. simpl. split; [lia|]. split; [lia|]. intros w [].
  - pose proof (attempt_trace retry_count i (get i)) as Htr.
    destruct (attempt retry_count (Z.of_nat i) (get i)) as [tr c].
    simpl in Htr.
    destruct (IH (S i)) as (Ha & Hs & Hw).
    destruct c as [r|].
    + simpl. unfold attempts, sleeps in *. simpl.
      destruct Htr as [-> | ->]; simpl.
      * split; [lia|]. split; [lia|]. intros w [].
      * split; [lia|]. split; [lia|].
        intros w [<-|[]]. apply wait_time_bounds.
    + destruct (fetch_loop get retry_count n (S i)) as [r tr'].
      simpl in *. unfold attempts, sleeps in *. simpl.
      destruct Htr as [-> | ->]; simpl.
      * split; [lia|]. split; [lia|]. exact Hw.
      * split; [lia|]. split; [lia|].
        intros w [<-|Hin]; [apply wait_time_bounds | now apply Hw].
Qed.

(** X1.  Whatever the server does, [fetch_records] makes at most
    [retry_count] requests, sleeps at most once per request, and every
    sleep lasts between 1 and 30 seconds. *)
Theorem fetch_records_stays_within_budget
    (get : nat -> result response) (retry_count : Z) :
  (attempts (snd (fetch_records get retry_count)) <= Z.to_nat retry_count)%nat /\
  (List.length (sleeps (snd (fetch_records get retry_count))) <=
     attempts (snd (fetch_records get retry_count)))%nat /\
  (forall w, In w (sleeps (snd (fetch_records get retry_count))) ->
             1 <= w <= 30).
Proof. apply fetch_loop_budget. Qed.

Lemma fetch_loop_success_origin get retry_count body :
  forall n i,
    fst (fetch_loop get retry_count n i) = Some body ->
    exists k,
      (k < n)%nat /\
      (forall j, (j < k)%nat -> succeeds (get (i + j)%nat) = None) /\
      succeeds (get (i + k)%nat) = Some body.
Proof.
  induction n as [|n IH]; intros i; simpl; [discriminate|].
  destruct (succeeds (get i)) as [b|] eqn:E.
  - rewrite (RetryFacts.attempt_success _ _ _ _ E). simpl.
    intros [= ->]. exists 0%nat. rewrite Nat.add_0_r.
    repeat split; [lia | intros j Hj; lia | exact E].
  - destruct (RetryFacts.attempt_not_success retry_count (Z.of_nat i)
                (get i) E) as [[w ->] | [-> _]]; [|discriminate].
    specialize (IH (S i)).
    destruct (fetch_loop get retry_count n (S i)) as [r tr]. simpl in *.
    intros Hr. destruct (IH Hr) as (k & Hk & Hf & Hs).
    exists (S k). repeat split; [lia | |].
    + intros [|j] Hj; [now rewrite Nat.add_0_r|].
      replace (i + S j)%nat with (S i + j)%nat by lia. apply Hf. lia.
    + replace (i + S k)%nat with (S i + k)%nat by lia. exact Hs.
Qed.

(** X2.  [fetch_records] returns a body exactly when some attempt within
    the first [retry_count] succeeds, and the body is that of the first
    attempt to succeed: failures before it, of any kind, are retried. *)
Theorem fetch_records_returns_first_success
    (get : nat -> result response) (retry_count : Z) (body : string) :
  fst (fetch_records get retry_count) = Some body <->
  exists k,
    Z.of_nat k < retry_count /\
    (forall j, (j < k)%nat -> succeeds (get j) = None) /\
    succeeds (get k) = Some body.
Proof.
  unfold fetch_records. split.
  - intros H.
    destruct (fetch_loop_success_origin get retry_count body _ _ H)
      as (k & Hk & Hf & Hs).
    exists k. repeat split; [lia | exact Hf | exact Hs].
  - intros (k & Hk & Hf & Hs).
    apply (RetryFacts.fetch_loop_failures_then_success get retry_count body
             k (Z.to_nat retry_count) 0%nat); [lia | simpl; lia | exact Hf
                                               | exact Hs].
Qed.

Lemma fetch_records_returns_first_success_witness :
  fst (fetch_records MoreExamples.recovering 3) = Some "<OAI-PMH/>".
Proof.
  apply (proj2 (fetch_records_returns_first_success MoreExamples.recovering
                  3 "<OAI-PMH/>")).
  exists 2%nat. split; [lia|]. split; [|reflexivity].
  intros [|[|j]] Hj; [reflexivity | reflexivity | lia].
Defined.

Lemma fetch_loop_busy get retry_count :
  forall n i,
    (forall j, busy_or_timeout (get j) = true) ->
    fst (fetch_loop get retry_count n i) = None /\
    sleeps (snd (fetch_loop get retry_count n i)) =
      map (fun j => wait_time (Z.of_nat j)) (seq i n) /\
    attempts (snd (fetch_loop get retry_count n i)) = n.
Proof.
  induction n as [|n IH]; intros i Hb; simpl; [auto|].
  assert (Ha : attempt retry_count (Z.of_nat i) (get i) =
               ([Sleep (wait_time (Z.of_nat i))], Next)).
  { specialize (Hb i). unfold busy_or_timeout in Hb. unfold attempt.
    destruct (get i) as [r|e]; simpl; now rewrite Hb. }
  rewrite Ha. destruct (IH (S i) Hb) as (Hr & Hs & Hn).
  destruct (fetch_loop get retry_count n (S i)) as [r tr]. simpl in *.
  unfold sleeps, attempts in *. simpl. rewrite Hs, Hn. auto.
Qed.

(** X3.  When every attempt meets a busy server (503) or times out, the
    unit is given up after [retry_count] requests and as many sleeps: it
    sleeps [min(2^i, 30)] after each request, the last one included, before
    returning [None]. *)
Theorem fetch_records_sleeps_after_last_busy_attempt
    (get : nat -> result response) (retry_count : Z) :
  (forall j, busy_or_timeout (get j) = true) ->
  fst (fetch_records get retry_count) = None /\
  attempts (snd (fetch_records get retry_count)) = Z.to_nat retry_count /\
  sleeps (snd (fetch_records get retry_count)) =
    map (fun i => Z.min (2 ^ Z.of_nat i) 30) (seq 0 (Z.to_nat retry_count)).
Proof.
  intros Hb. unfold fetch_records.
  destruct (fetch_loop_busy get retry_count (Z.to_nat retry_count) 0%nat Hb)
    as (Hr & Hs & Hn).
  auto.
Qed.

Lemma fetch_records_sleeps_after_last_busy_attempt_witness :
  fst (fetch_records MoreExamples.busy 3) = None /\
  attempts (snd (fetch_records MoreExamples.busy 3)) = 3%nat /\
  sleeps (snd (fetch_records MoreExamples.busy 3)) = [1; 2; 4].
Proof.
  apply (fetch_records_sleeps_after_last_busy_attempt MoreExamples.busy 3).
  intros j. reflexivity.
Defined.

Lemma fetch_loop_errors get retry_count :
  forall n i,
    Z.of_nat (i + n) = retry_count ->
    (forall j, other_error (get j) = true) ->
    fst (fetch_loop get retry_count n i) = None /\
    sleeps (snd (fetch_loop get retry_count n i)) =
      map (fun j => wait_time (Z.of_nat j)) (seq i (pred n)) /\
    attempts (snd (fetch_loop get retry_count n i)) = n.
Proof.
  induction n as [|n IH]; intros i Hn He; simpl; [auto|].
  assert (Ha : attempt retry_count (Z.of_nat i) (get i) =
               if Z.of_nat i <? retry_count - 1
               then ([Sleep (wait_time (Z.of_nat i))], Next)
               else ([], Return None)).
  { specialize (He i). unfold other_error in He.
    unfold attempt, raise_for_status.
    destruct (get i) as [r|e]; simpl.
    - apply andb_true_iff in He as [H5 H4].
      apply negb_true_iff in H5. rewrite H5, H4. reflexivity.
    - apply negb_true_iff in He. now rewrite He. }
  rewrite Ha. destruct (Z.of_nat i <? retry_count - 1) eqn:Hi.
  - apply Z.ltb_lt in Hi. destruct n as [|n]; [lia|].
    destruct (IH (S i)) as (Hr & Hs & Hc); [lia | exact He |].
    destruct (fetch_loop get retry_count (S n) (S i)) as [r tr].
    simpl in *. unfold sleeps, attempts in *. simpl. rewrite Hs, Hc. auto.
  - apply Z.ltb_ge in Hi. assert (n = 0%nat) by lia. subst n.
    simpl. unfold sleeps, attempts. simpl. auto.
Qed.

(** X4.  When every attempt ends in an error other than busy or timeout,
    the unit is given up after [retry_count] requests but only
    [retry_count - 1] sleeps: the last failure returns [None] at once. *)
Theorem fetch_records_gives_up_at_once_on_last_error
    (get : nat -> result response) (retry_count : Z) :
  0 <= retry_count ->
  (forall j, other_error (get j) = true) ->
  fst (fetch_records get retry_count) = None /\
  attempts (snd (fetch_records get retry_count)) = Z.to_nat retry_count /\
  sleeps (snd (fetch_records get retry_count)) =
    map (fun i => Z.min (2 ^ Z.of_nat i) 30)
      (seq 0 (pred (Z.to_nat retry_count))).
Proof.
  intros H0 He. unfold fetch_records.
  destruct (fetch_loop_errors get retry_count (Z.to_nat retry_count) 0%nat)
    as (Hr & Hs & Hn); [lia | exact He |].
  auto.
Qed.

Lemma fetch_records_gives_up_at_once_on_last_error_witness :
  fst (fetch_records MoreExamples.unreachable 3) = None /\
  attempts (snd (fetch_records MoreExamples.unreachable 3)) = 3%nat /\
  sleeps (snd (fetch_records MoreExamples.unreachable 3)) = [1; 2].
Proof.
  apply (fetch_records_gives_up_at_once_on_last_error
           MoreExamples.unreachable 3).
  - lia.
  - intros j. reflexivity.
Defined.

End RetryMore.

(** ** More on the OAI-PMH extractor *)

Module ExtractMore.
Import Extract Fields.

Lemma dict_get_set_same (k : string) (v : value) (d : record_data) :
  dict_get k (dict_set k v d) = Some v.
Proof.
  induction d as [|[k' v'] d IH]; simpl.
  - now rewrite String.eqb_refl.
  - destruct (String.eqb k k') eqn:E; simpl; now rewrite E.
Qed.

Lemma dict_get_set_other (k k' : string) (v : value) (d : record_data) :
  k' <> k -> dict_get k' (dict_set k v d) = dict_get k' d.
Proof.
  intros Hne. induction d as [|[k0 v0] d IH]; simpl.
  - apply String.eqb_neq in Hne. now rewrite Hne.
  - destruct (String.eqb k k0) eqn:E; simpl.
    + apply String.eqb_eq in E. subst k0.
      apply String.eqb_neq in Hne. now rewrite Hne.
    + now rewrite IH.
Qed.

Lemma merge_values_cons (old : option value) (v : option string)
    (vs : list (option string)) :
  merge_values (merge_values old [v]) vs = merge_values old (v :: vs).
Proof.
  destruct old as [[s|l]|], vs as [|v' vs]; simpl; try reflexivity.
  now rewrite <- app_assoc.
Qed.

Lemma mapM_length {A B} (f : A -> result B) :
  forall (l : list A) (out : list B),
    mapM f l = Ret out -> List.length out = List.length l.
Proof.
  induction l as [|a l IH]; intros out; simpl.
  - now intros [= <-].
  - destruct (f a) as [b|e]; simpl; [|discriminate].
    destruct (mapM f l) as [bs|e]; simpl; [|discriminate].
    intros [= <-]. simpl. now rewrite (IH bs).
Qed.

Lemma mapM_raises {A B} (f : A -> result B) (x : A) :
  forall l : list A, In x l -> raises (f x) -> raises (mapM f l).
Proof.
  induction l as [|a l IH]; intros Hin Hx; [contradiction|]. simpl.
  destruct (f a) as [b|e] eqn:Ea; simpl.
  - destruct Hin as [-> | Hin].
    + destruct Hx as [e He]. congruence.
    + destruct (IH Hin Hx) as [e ->]. simpl. now exists e.
  - now exists e.
Qed.

Section Facts.
Context {lxml : Lxml}.

Lemma add_element_spec (rd : record_data) (el : element) (name : string) :
  localname el = Ret name ->
  exists rd',
    add_element rd el = Ret rd' /\
    dict_get name rd' = merge_values (dict_get name rd) [element_text el] /\
    (forall tag, tag <> name -> dict_get tag rd' = dict_get tag rd).
Proof.
  intros Hn. unfold add_element. rewrite Hn. simpl.
  destruct (dict_get name rd) as [[s|l]|]; eexists;
    (split; [reflexivity|]); (split; [apply dict_get_set_same|]);
    intros tag Ht; now apply dict_get_set_other.
Qed.

(** Folding the Dublin Core elements into a dict leaves, under each key,
    the old value merged with the texts of the elements of that name. *)
Lemma fold_add_element_spec :
  forall (els : list element) (names : list string) (rd : record_data),
    mapM localname els = Ret names ->
    exists rd',
      foldM add_element els rd = Ret rd' /\
      forall tag,
        dict_get tag rd' =
        merge_values (dict_get tag rd) (occurrences tag names els).
Proof.
  induction els as [|el els IH]; intros names rd; simpl.
  - intros [= <-]. exists rd. split; [reflexivity|]. intros tag. reflexivity.
  - destruct (localname el) as [name|e] eqn:En; simpl; [|discriminate].
    destruct (mapM localname els) as [ns|e] eqn:Ens; simpl; [|discriminate].
    intros [= <-].
    destruct (add_element_spec rd el name En) as (rd1 & Ha & Hsame & Hother).
    rewrite Ha. simpl.
    destruct (IH ns rd1 eq_refl) as (rd' & Hf & Hget).
    exists rd'. split; [exact Hf|]. intros tag. rewrite Hget. simpl.
    destruct (String.eqb tag name) eqn:E.
    + apply String.eqb_eq in E. subst tag.
      rewrite Hsame. apply merge_values_cons.
    + apply String.eqb_neq in E. now rewrite Hother.
Qed.

(** X5.  The fields of a record: each key holds the texts of all the
    Dublin Core elements of that name in document order, a single text
    when there is one and a list when there are several; the header's
    identifier and datestamp come first, so a [dc:identifier] element
    turns the [identifier] field into a list that starts with the OAI
    identifier. *)
Theorem extract_record_collects_fields (record : element)
    (identifier datestamp : list string) (els : list element)
    (names : list string) :
  xpath_text "./oai:header/oai:identifier/text()" record = Ret identifier ->
  xpath_text "./oai:header/oai:datestamp/text()" record = Ret datestamp ->
  xpath ".//oai_dc:dc/*" record = Ret els ->
  mapM localname els = Ret names ->
  exists record_data,
    extract_record record = Ret record_data /\
    forall tag,
      dict_get tag record_data =
      merge_values (header_value tag identifier datestamp)
        (occurrences tag names els).
Proof.
  intros Hi Hd He Hn. unfold extract_record. rewrite Hi. simpl.
  rewrite Hd. simpl. rewrite He. simpl.
  match goal with
  | |- context [foldM add_element els ?rd0] =>
      destruct (fold_add_element_spec els names rd0 Hn) as (rd & Hf & Hget)
  end.
  exists rd. split; [exact Hf|]. intros tag. rewrite Hget. f_equal.
  unfold header_value.
  destruct identifier as [|i ids], datestamp as [|d dss]; simpl;
    destruct (String.eqb tag "identifier") eqn:E1;
    destruct (String.eqb tag "datestamp") eqn:E2; try reflexivity.
  all: apply String.eqb_eq in E1; apply String.eqb_eq in E2; congruence.
Qed.

(** X6.  A resumption token that [extract_records] returns is the first
    [resumptionToken] text of the document exactly as it stands: the text
    is tested stripped but returned unstripped.  It is never the empty
    string, so the engine's test [if next_token] never discards a token
    the extractor returned: merging a non-empty payload appends exactly
    that token to the queue, and the payload's records to the result. *)
Theorem extract_records_token_is_verbatim_and_enqueued (xml_content : string)
    (records : list record_data) (t : string) :
  extract_records xml_content = Ret (records, Some t) ->
  (exists root rest,
     fromstring xml_content = Ret root /\
     xpath_text "//oai:resumptionToken/text()" root = Ret (t :: rest)) /\
  truthy_str t = true /\
  (truthy_str xml_content = true ->
   forall st,
     Harvest.resumption_tokens
       (Harvest.merge_response true (Some xml_content) st) =
       Harvest.resumption_tokens st ++ [t] /\
     Harvest.all_records
       (Harvest.merge_response true (Some xml_content) st) =
       Harvest.all_records st ++ records).
Proof.
  intros H.
  assert (Hv : extract_records_value xml_content = (records, Some t)).
  { revert H. unfold extract_records, extract_records_value, try_except.
    destruct (extract_records_try xml_content) as [out|e];
      [now intros [= ->] | discriminate]. }
  unfold extract_records, try_except, extract_records_try in H.
  destruct (fromstring xml_content) as [root|e] eqn:Er; simpl in H;
    [|discriminate].
  destruct (xpath "//oai:record" root) as [rs|e]; simpl in H; [|discriminate].
  destruct (mapM extract_record rs) as [recs|e]; simpl in H; [|discriminate].
  destruct (xpath_text "//oai:resumptionToken/text()" root) as [toks|e]
    eqn:Et; simpl in H; [|discriminate].
  injection H as _ Ht.
  assert (Hne : truthy_str t = true)
    by exact (ExtractFacts.token_of_truthy _ _ Ht).
  split.
  { exists root. unfold token_of in Ht. destruct toks as [|t0 toks];
      [discriminate|].
    destruct (truthy_str (Str.strip t0)); [|discriminate].
    injection Ht as <-. exists toks. split; [reflexivity|exact Et]. }
  split; [exact Hne|].
  intros Hx st. unfold Harvest.merge_response. rewrite Hx, Hv. simpl.
  rewrite Hne. simpl. split; reflexivity.
Qed.

(** X7.  A batch is all or nothing: when the extraction of any one of its
    records raises, [extract_records] returns no record at all and no
    resumption token, whatever the other records of the batch hold. *)
Theorem extract_records_drops_batch_on_bad_record (xml_content : string)
    (root : element) (recs : list element) (bad : element) :
  fromstring xml_content = Ret root ->
  xpath "//oai:record" root = Ret recs ->
  In bad recs ->
  raises (extract_record bad) ->
  extract_records xml_content = Ret ([], None).
Proof.
  intros Hr Hx Hin Hbad. apply ExtractFacts.extract_records_parse_failure.
  unfold extract_records_try. rewrite Hr. simpl. rewrite Hx. simpl.
  destruct (mapM_raises extract_record bad recs Hin Hbad) as [e ->].
  now exists e.
Qed.

(** X8.  When nothing raises, [extract_records] returns exactly one
    [record_data] for each [oai:record] element of the document. *)
Theorem extract_records_one_record_per_element (xml_content : string)
    (records : list record_data) (token : option string) :
  extract_records_try xml_content = Ret (records, token) ->
  exists root recs,
    fromstring xml_content = Ret root /\
    xpath "//oai:record" root = Ret recs /\
    List.length records = List.length recs /\
    extract_records xml_content = Ret (records, token).
Proof.
  intros H. assert (H' := H). revert H. unfold extract_records_try.
  destruct (fromstring xml_content) as [root|e] eqn:Er; simpl; [|discriminate].
  destruct (xpath "//oai:record" root) as [rs|e] eqn:Ex; simpl;
    [|discriminate].
  destruct (mapM extract_record rs) as [out|e] eqn:Em; simpl; [|discriminate].
  destruct (xpath_text "//oai:resumptionToken/text()" root) as [toks|e];
    simpl; [|discriminate].
  intros [= <- _]. exists root, rs.
  split; [reflexivity|]. split; [exact Ex|].
  split; [apply (mapM_length _ _ _ Em)|].
  unfold extract_records. now rewrite H'.
Qed.

End Facts.

Lemma extract_record_collects_fields_witness :
  exists record_data,
    extract_record (lxml := MoreExamples.dc_lxml)
      (MoreExamples.DcRecord false) = Ret record_data /\
    dict_get "identifier" record_data =
      Some (Many [Some "oai:1"; Some "https://hdl.handle.net/1887/1"]) /\
    dict_get "creator" record_data =
      Some (Many [Some "A. Author"; Some "B. Author"; None]) /\
    dict_get "title" record_data = Some (Single (Some "On harvesting")) /\
    dict_get "subject" record_data = None.
Proof.
  destruct (extract_record_collects_fields (lxml := MoreExamples.dc_lxml)
              (MoreExamples.DcRecord false) ["oai:1"] ["2024-01-01"]
              [MoreExamples.DcElement "title" (Some "On harvesting");
               MoreExamples.DcElement "creator" (Some "A. Author");
               MoreExamples.DcElement "identifier"
                 (Some "https://hdl.handle.net/1887/1");
               MoreExamples.DcElement "creator" (Some "B. Author");
               MoreExamples.DcElement "creator" None]
              ["title"; "creator"; "identifier"; "creator"; "creator"]
              eq_refl eq_refl eq_refl eq_refl)
    as (rd & Hrd & Hget).
  exists rd. split; [exact Hrd|].
  rewrite !Hget. repeat split.
Defined.

Lemma extract_records_token_is_verbatim_and_enqueued_witness :
  (exists root rest,
     fromstring (Lxml := MoreExamples.dc_lxml) "<OAI-PMH/>" = Ret root /\
     xpath_text "//oai:resumptionToken/text()" root = Ret ("tok " :: rest)) /\
  truthy_str "tok " = true /\
  (truthy_str "<OAI-PMH/>" = true ->
   forall st,
     Harvest.resumption_tokens
       (Harvest.merge_response (lxml := MoreExamples.dc_lxml) true
          (Some "<OAI-PMH/>") st) =
       Harvest.resumption_tokens st ++ ["tok "] /\
     Harvest.all_records
       (Harvest.merge_response (lxml := MoreExamples.dc_lxml) true
          (Some "<OAI-PMH/>") st) =
       Harvest.all_records st ++
       fst (extract_records_value (lxml := MoreExamples.dc_lxml)
              "<OAI-PMH/>")).
Proof.
  apply (extract_records_token_is_verbatim_and_enqueued
           (lxml := MoreExamples.dc_lxml) "<OAI-PMH/>"
           (fst (extract_records_value (lxml := MoreExamples.dc_lxml)
                   "<OAI-PMH/>"))
           "tok ").
  vm_compute. reflexivity.
Defined.

Lemma extract_records_drops_batch_on_bad_record_witness :
  extract_records (lxml := MoreExamples.dc_lxml) "<bad/>" = Ret ([], None).
Proof.
  apply (extract_records_drops_batch_on_bad_record
           (lxml := MoreExamples.dc_lxml) "<bad/>" (MoreExamples.DcDoc true)
           [MoreExamples.DcRecord false; MoreExamples.DcRecord true]
           (MoreExamples.DcRecord true)).
  - reflexivity.
  - reflexivity.
  - simpl. right. left. reflexivity.
  - exists (OtherException "ValueError"). reflexivity.
Defined.

Lemma extract_records_one_record_per_element_witness :
  exists root recs,
    fromstring (Lxml := MoreExamples.dc_lxml) "<OAI-PMH/>" = Ret root /\
    xpath "//oai:record" root = Ret recs /\
    List.length
      (fst (extract_records_value (lxml := MoreExamples.dc_lxml)
              "<OAI-PMH/>")) = List.length recs /\
    extract_records (lxml := MoreExamples.dc_lxml) "<OAI-PMH/>" =
      Ret (extract_records_value (lxml := MoreExamples.dc_lxml) "<OAI-PMH/>").
Proof.
  apply (extract_records_one_record_per_element
           (lxml := MoreExamples.dc_lxml) "<OAI-PMH/>"
           (fst (extract_records_value (lxml := MoreExamples.dc_lxml)
                   "<OAI-PMH/>"))
           (snd (extract_records_value (lxml := MoreExamples.dc_lxml)
                   "<OAI-PMH/>"))).
  vm_compute. reflexivity.
Defined.

End ExtractMore.

(** ** More on the chained-mode engine *)

Module HarvestMore.
Import Retry Extract Harvest.

Section Facts.
Context {lxml : Lxml}.
Variable session : nat -> option token -> nat -> result response.

Lemma fill_tasks_keeps_records (max_concurrent : Z) (toks : list token) :
  forall st,
    all_records (fill_tasks max_concurrent toks st) = all_records st /\
    pbar (fill_tasks max_concurrent toks st) = pbar st.
Proof.
  induction toks as [|tok rest IH]; intros st; simpl; [auto|].
  destruct (Z.of_nat (List.length (tasks st)) <? max_concurrent); [|auto].
  destruct (IH (create_task tok rest st)) as [Ha Hp]. simpl in *. auto.
Qed.

Lemma merge_response_grows (enqueue : bool) (r : option string) (st : state) :
  exists more,
    all_records (merge_response enqueue r st) = all_records st ++ more /\
    pbar (merge_response enqueue r st) =
      pbar st + Z.of_nat (List.length more).
Proof.
  unfold merge_response. destruct r as [xml|].
  - destruct (truthy_str xml).
    + destruct (extract_records_value xml) as [recs tok]. exists recs.
      simpl. auto.
    + exists []. rewrite app_nil_r. simpl. split; [reflexivity | lia].
  - exists []. rewrite app_nil_r. simpl. split; [reflexivity | lia].
Qed.

Lemma merge_response_keeps_counters (enqueue : bool) (r : option string)
    (st : state) :
  calls (merge_response enqueue r st) = calls st /\
  rounds (merge_response enqueue r st) = rounds st.
Proof.
  unfold merge_response. destruct r as [xml|]; [|auto].
  destruct (truthy_str xml); [|auto].
  destruct (extract_records_value xml) as [recs tok]. simpl. auto.
Qed.

Lemma process_all_grows (pending done : list task) :
  forall st,
    exists more,
      all_records (fold_left (process_done session pending) done st) =
        all_records st ++ more /\
      pbar (fold_left (process_done session pending) done st) =
        pbar st + Z.of_nat (List.length more).
Proof.
  induction done as [|t done IH]; intros st; simpl.
  - exists []. rewrite app_nil_r. simpl. split; [reflexivity | lia].
  - destruct (merge_response_grows true (task_result session t) st)
      as (m1 & Ha1 & Hp1).
    destruct (IH (process_done session pending st t)) as (m2 & Ha2 & Hp2).
    exists (m1 ++ m2). unfold process_done in *. simpl in *.
    rewrite Ha2, Hp2, Ha1, Hp1, length_app, app_assoc.
    split; [reflexivity | lia].
Qed.

Lemma gather_remaining_grows (st : state) :
  exists more,
    all_records (gather_remaining session st) = all_records st ++ more /\
    pbar (gather_remaining session st) =
      pbar st + Z.of_nat (List.length more).
Proof.
  unfold gather_remaining. generalize (tasks st) as ts. intros ts.
  revert st. induction ts as [|t ts IH]; intros st; simpl.
  - exists []. rewrite app_nil_r. simpl. split; [reflexivity | lia].
  - destruct (merge_response_grows false (task_result session t) st)
      as (m1 & Ha1 & Hp1).
    destruct (IH (merge_response false (task_result session t) st))
      as (m2 & Ha2 & Hp2).
    exists (m1 ++ m2). rewrite Ha2, Hp2, Ha1, Hp1, length_app, app_assoc.
    split; [reflexivity | lia].
Qed.

Variable max_concurrent : Z.
Variable finished : nat -> task -> bool.

Lemma loop_body_grows (st : state) :
  exists more,
    all_records (loop_body max_concurrent session finished st) =
      all_records st ++ more /\
    pbar (loop_body max_concurrent session finished st) =
      pbar st + Z.of_nat (List.length more).
Proof.
  unfold loop_body.
  destruct (fill_tasks_keeps_records max_concurrent (resumption_tokens st) st)
    as [Ha Hp].
  set (st1 := fill_tasks max_concurrent (resumption_tokens st) st) in *.
  destruct (tasks st1) as [|t ts].
  - exists []. simpl. rewrite Ha, Hp, app_nil_r. simpl.
    split; [reflexivity | lia].
  - destruct (asyncio_wait finished (rounds st1) (t :: ts)) as [done pending].
    destruct (process_all_grows pending done st1) as (more & Ha' & Hp').
    exists more. simpl. rewrite Ha', Hp', Ha, Hp. auto.
Qed.

Lemma loop_heads_head (fuel : nat) (st : state) :
  In st (loop_heads max_concurrent session finished fuel st).
Proof. destruct fuel; simpl; now left. Qed.

Lemma harvest_loop_grows (fuel : nat) :
  forall st0 s st,
    In s (loop_heads max_concurrent session finished fuel st0) ->
    harvest_loop max_concurrent session finished fuel st0 = Some st ->
    exists more,
      all_records st = all_records s ++ more /\
      pbar st = pbar s + Z.of_nat (List.length more).
Proof.
  induction fuel as [|fuel IH]; intros st0 s st; simpl.
  - destruct (resumption_tokens st0); [|discriminate].
    intros [<-|[]] [= <-]. exists []. rewrite app_nil_r. simpl.
    split; [reflexivity | lia].
  - destruct (resumption_tokens st0).
    + intros [<-|[]] [= <-]. exists []. rewrite app_nil_r. simpl.
      split; [reflexivity | lia].
    + intros [<-|Hin] Hrun.
      * destruct (loop_body_grows st0) as (m1 & Ha1 & Hp1).
        destruct (IH _ _ st (loop_heads_head fuel _) Hrun)
          as (m2 & Ha2 & Hp2).
        exists (m1 ++ m2). rewrite Ha2, Hp2, Ha1, Hp1, length_app, app_assoc.
        split; [reflexivity | lia].
      * exact (IH _ _ _ Hin Hrun).
Qed.

End Facts.

(** X9.  Nothing harvested is ever dropped or reordered: the records held
    at any head of the outer loop, the first batch's among them, are a
    prefix of the list the run returns. *)
Theorem harvest_keeps_what_it_has {lxml : Lxml} (max_concurrent : Z)
    (session : nat -> option token -> nat -> result response)
    (finished : nat -> task -> bool) (fuel : nat) (st0 s st : state) :
  first_batch session = Some st0 ->
  In s (loop_heads max_concurrent session finished fuel st0) ->
  harvest_run max_concurrent session finished fuel = Some (Some st) ->
  exists more, all_records st = all_records s ++ more.
Proof.
  intros H0 Hin. unfold harvest_run. rewrite H0.
  destruct (harvest_loop max_concurrent session finished fuel st0)
    as [st1|] eqn:E; [|discriminate].
  intros [= <-].
  destruct (harvest_loop_grows session max_concurrent finished fuel
              st0 s st1 Hin E) as (m1 & Ha1 & _).
  destruct (gather_remaining_grows session st1) as (m2 & Ha2 & _).
  exists (m1 ++ m2). now rewrite Ha2, Ha1, app_assoc.
Qed.

Lemma harvest_keeps_what_it_has_witness :
  exists st0 s st,
    first_batch (lxml := Examples.toy_lxml) Examples.chain_source =
      Some st0 /\
    In s (loop_heads (lxml := Examples.toy_lxml) 3 Examples.chain_source
            Examples.nobody 3 st0) /\
    List.length (all_records s) = 4%nat /\
    harvest_run (lxml := Examples.toy_lxml) 3 Examples.chain_source
      Examples.nobody 3 = Some (Some st) /\
    exists more, all_records st = all_records s ++ more.
Proof.
  eexists. eexists. eexists.
  split; [vm_compute; reflexivity|].
  split; [vm_compute; right; left; reflexivity|].
  split; [reflexivity|].
  split; [vm_compute; reflexivity|].
  eapply (harvest_keeps_what_it_has (lxml := Examples.toy_lxml) 3
            Examples.chain_source Examples.nobody 3).
  - vm_compute; reflexivity.
  - vm_compute; right; left; reflexivity.
  - vm_compute; reflexivity.
Defined.

(** X10.  The progress bar counts exactly the records returned: when the
    run ends, its total equals [len(all_records)]. *)
Theorem harvest_progress_counts_records {lxml : Lxml} (max_concurrent : Z)
    (session : nat -> option token -> nat -> result response)
    (finished : nat -> task -> bool) (fuel : nat) (st : state) :
  harvest_run max_concurrent session finished fuel = Some (Some st) ->
  pbar st = Z.of_nat (List.length (all_records st)).
Proof.
  unfold harvest_run.
  destruct (first_batch session) as [st0|] eqn:E0; [|discriminate].
  destruct (harvest_loop max_concurrent session finished fuel st0)
    as [st1|] eqn:E; [|discriminate].
  intros [= <-].
  assert (Hp0 : pbar st0 = Z.of_nat (List.length (all_records st0))).
  { revert E0. unfold first_batch.
    destruct (negb (truthy (fetch session 0 None))); [discriminate|].
    destruct (extract_records_value _) as [recs tok].
    now intros [= <-]. }
  destruct (harvest_loop_grows session max_concurrent finished fuel
              st0 st0 st1
              (loop_heads_head session max_concurrent finished fuel st0) E)
    as (m1 & Ha1 & Hp1).
  destruct (gather_remaining_grows session st1) as (m2 & Ha2 & Hp2).
  rewrite Hp2, Ha2, Hp1, Ha1, Hp0, !length_app. lia.
Qed.

Lemma harvest_progress_counts_records_witness :
  exists st,
    harvest_run (lxml := Examples.toy_lxml) 3 Examples.broken_source
      Examples.nobody 5 = Some (Some st) /\
    pbar st = Z.of_nat (List.length (all_records st)) /\
    pbar st = 4.
Proof.
  eexists. split; [vm_compute; reflexivity|].
  split; [|reflexivity].
  apply (harvest_progress_counts_records (lxml := Examples.toy_lxml) 3
           Examples.broken_source Examples.nobody 5).
  vm_compute; reflexivity.
Defined.

End HarvestMore.

(** ** The engine is sequential: consequences *)

Module HarvestSequential.
Import Retry Extract Harvest.

Section Facts.
Context {lxml : Lxml}.
Variable session : nat -> option token -> nat -> result response.

(** On a state with nothing in flight and at most one token queued, an
    iteration does the same under every positive ceiling and scheduler. *)
Lemma loop_body_same (c1 c2 : Z) (f1 f2 : nat -> task -> bool) (st : state) :
  1 <= c1 -> 1 <= c2 ->
  tasks st = [] ->
  (List.length (resumption_tokens st) <= 1)%nat ->
  loop_body c1 session f1 st = loop_body c2 session f2 st.
Proof.
  intros H1 H2 Ht Hq.
  destruct (resumption_tokens st) as [|t [|t' q]] eqn:E.
  - unfold loop_body. rewrite E. simpl fill_tasks. now rewrite Ht.
  - rewrite (HarvestFacts.loop_body_single c1 session f1 H1 st t Ht E).
    now rewrite (HarvestFacts.loop_body_single c2 session f2 H2 st t Ht E).
  - simpl in Hq. lia.
Qed.

Lemma harvest_loop_same (c1 c2 : Z) (f1 f2 : nat -> task -> bool) :
  1 <= c1 -> 1 <= c2 ->
  forall fuel st,
    run_invariant c1 st ->
    harvest_loop c1 session f1 fuel st = harvest_loop c2 session f2 fuel st.
Proof.
  intros H1 H2. induction fuel as [|fuel IH]; intros st Hinv; simpl.
  - reflexivity.
  - destruct (resumption_tokens st) eqn:E; [reflexivity|].
    destruct Hinv as (Ht & Hq & Hrest).
    rewrite <- (loop_body_same c1 c2 f1 f2 st H1 H2 Ht Hq).
    apply IH. apply HarvestFacts.loop_body_invariant.
    repeat split; auto; apply Hrest.
Qed.

(** With a positive ceiling an iteration of the outer loop that finds a
    token fetches exactly that one batch. *)
Lemma loop_body_counts (c : Z) (f : nat -> task -> bool) (st : state)
    (t : token) :
  1 <= c ->
  tasks st = [] ->
  resumption_tokens st = [t] ->
  let st' := loop_body c session f st in
  tasks st' = [] /\
  (List.length (resumption_tokens st') <= 1)%nat /\
  rounds st' = S (rounds st) /\
  calls st' = S (calls st) /\
  dispatched st' = dispatched st ++ [t].
Proof.
  intros Hc Ht Hq. cbv zeta.
  rewrite (HarvestFacts.loop_body_single c session f Hc st t Ht Hq).
  set (r := fetch session (calls st) (Some t)).
  destruct (HarvestFacts.merge_response_spec true r (create_task t [] st))
    as (new & Hn & _ & Hq' & _ & _ & Hd & _).
  destruct (HarvestMore.merge_response_keeps_counters true r
              (create_task t [] st)) as [Hc' Hr'].
  simpl in *. rewrite Hq', Hc', Hr', Hd. simpl. auto.
Qed.

Lemma harvest_loop_counts (c : Z) (f : nat -> task -> bool) :
  1 <= c ->
  forall fuel st st',
    tasks st = [] ->
    (List.length (resumption_tokens st) <= 1)%nat ->
    harvest_loop c session f fuel st = Some st' ->
    tasks st' = [] /\
    (rounds st' - rounds st = List.length (dispatched st') -
                              List.length (dispatched st))%nat /\
    (calls st' - calls st = rounds st' - rounds st)%nat /\
    (rounds st <= rounds st')%nat /\
    (calls st <= calls st')%nat /\
    (List.length (dispatched st) <= List.length (dispatched st'))%nat.
Proof.
  intros Hc. induction fuel as [|fuel IH]; intros st st' Ht Hq; simpl.
  - destruct (resumption_tokens st); [|discriminate].
    intros [= <-]. repeat split; auto; lia.
  - destruct (resumption_tokens st) as [|t [|t' q]] eqn:E.
    + intros [= <-]. repeat split; auto; lia.
    + intros Hrun.
      destruct (loop_body_counts c f st t Hc Ht E)
        as (Ht1 & Hq1 & Hr1 & Hc1 & Hd1).
      destruct (IH _ _ Ht1 Hq1 Hrun) as (Ht2 & Hr2 & Hc2 & Hle1 & Hle2 & Hle3).
      rewrite Hr1, Hc1, Hd1, length_app in *. simpl in *.
      repeat split; auto; lia.
    + simpl in Hq. lia.
Qed.

End Facts.

(** X11.  The result of a harvest does not depend on the concurrency
    ceiling, as long as it is positive, nor on the order in which the
    scheduler completes tasks: any two such runs, given the same number of
    iterations, return the same list of records. *)
Theorem harvest_result_ignores_concurrency {lxml : Lxml}
    (session : nat -> option token -> nat -> result response)
    (c1 c2 : Z) (f1 f2 : nat -> task -> bool) (fuel : nat) :
  1 <= c1 -> 1 <= c2 ->
  harvest_records_async c1 session f1 fuel =
  harvest_records_async c2 session f2 fuel.
Proof.
  intros H1 H2. unfold harvest_records_async, harvest_run.
  destruct (first_batch session) as [st0|] eqn:E0; [|reflexivity].
  rewrite (harvest_loop_same session c1 c2 f1 f2 H1 H2 fuel st0
             (HarvestFacts.first_batch_invariant c1 session st0 E0)).
  reflexivity.
Qed.

Lemma harvest_result_ignores_concurrency_witness :
  harvest_records_async (lxml := Examples.toy_lxml) 1 Examples.chain_source
    Examples.nobody 3 =
  harvest_records_async (lxml := Examples.toy_lxml) 32 Examples.chain_source
    MoreExamples.everybody 3.
Proof.
  apply (harvest_result_ignores_concurrency (lxml := Examples.toy_lxml)
           Examples.chain_source 1 32 Examples.nobody MoreExamples.everybody
           3); lia.
Defined.

(** X12.  With a positive ceiling the engine fetches one batch per
    iteration of its outer loop: when the run ends, the number of
    iterations equals the number of tokens dispatched, and the number of
    [fetch_records] calls is one more, for the first batch. *)
Theorem harvest_fetches_one_batch_per_round {lxml : Lxml}
    (max_concurrent : Z)
    (session : nat -> option token -> nat -> result response)
    (finished : nat -> task -> bool) (fuel : nat) (st : state) :
  1 <= max_concurrent ->
  harvest_run max_concurrent session finished fuel = Some (Some st) ->
  rounds st = List.length (dispatched st) /\
  calls st = S (List.length (dispatched st)).
Proof.
  intros Hc. unfold harvest_run.
  destruct (first_batch session) as [st0|] eqn:E0; [|discriminate].
  destruct (harvest_loop max_concurrent session finished fuel st0)
    as [st1|] eqn:E; [|discriminate].
  intros [= <-].
  destruct (HarvestFacts.first_batch_spec session st0 E0)
    as (xml & _ & _ & _ & Hq0 & _ & Ht0 & Hd0 & Hc0 & _).
  assert (Hr0 : rounds st0 = 0%nat).
  { revert E0. unfold first_batch.
    destruct (negb (truthy (fetch session 0 None))); [discriminate|].
    match goal with
    | |- context [extract_records_value ?x] =>
        destruct (extract_records_value x) as [recs tok]
    end.
    intros [= Hst]. now rewrite <- Hst. }
  assert (Hlen : (List.length (resumption_tokens st0) <= 1)%nat).
  { rewrite Hq0. unfold queue_of.
    destruct (snd (extract_records_value xml)) as [t|]; simpl; [|lia].
    destruct (truthy_str t); simpl; lia. }
  destruct (harvest_loop_counts session max_concurrent finished Hc fuel
              st0 st1 Ht0 Hlen E) as (Ht1 & Hr & Hcl & Hle1 & Hle2 & Hle3).
  rewrite (HarvestFacts.gather_remaining_idle session st1 Ht1).
  rewrite Hd0, Hc0, Hr0 in *. simpl in *. lia.
Qed.

Lemma harvest_fetches_one_batch_per_round_witness :
  exists st,
    harvest_run (lxml := Examples.toy_lxml) 8 Examples.chain_source
      Examples.nobody 3 = Some (Some st) /\
    rounds st = List.length (dispatched st) /\
    calls st = S (List.length (dispatched st)) /\
    calls st = 4%nat.
Proof.
  eexists. split; [vm_compute; reflexivity|].
  assert (H : forall A B C : Prop, A /\ B -> C -> A /\ B /\ C) by tauto.
  apply H; [|reflexivity].
  apply (harvest_fetches_one_batch_per_round (lxml := Examples.toy_lxml) 8
           Examples.chain_source Examples.nobody 3).
  - lia.
  - vm_compute; reflexivity.
Defined.

End HarvestSequential.

(** ** The command line of the OAI-PMH harvester *)

Module CliFacts.
Import Retry Extract Harvest Cli.

(** X13.  Every command line whose concurrency argument is a positive
    number, is missing or does not parse gives the same outcome: the level
    of concurrency changes neither the records harvested nor what is
    saved. *)
Theorem main_outcome_ignores_concurrency {lxml : Lxml}
    (py_int : string -> option Z)
    (session : nat -> option token -> nat -> result response)
    (f1 f2 : nat -> task -> bool) (argv1 argv2 : list string) (fuel : nat) :
  1 <= concurrency_of py_int argv1 ->
  1 <= concurrency_of py_int argv2 ->
  option_map records (main py_int session f1 argv1 fuel) =
    option_map records (main py_int session f2 argv2 fuel) /\
  option_map saved (main py_int session f1 argv1 fuel) =
    option_map saved (main py_int session f2 argv2 fuel).
Proof.
  intros H1 H2.
  assert (Hsame :
    harvest_records_async (concurrency_of py_int argv1) session f1 fuel =
    harvest_records_async (concurrency_of py_int argv2) session f2 fuel).
  { unfold harvest_records_async, harvest_run.
    destruct (first_batch session) as [st0|] eqn:E0; [|reflexivity].
    now rewrite (HarvestSequential.harvest_loop_same session _ _ f1 f2
                   H1 H2 fuel st0
                   (HarvestFacts.first_batch_invariant _ session st0 E0)). }
  unfold main. rewrite Hsame.
  destruct (harvest_records_async _ session f2 fuel); simpl; auto.
Qed.

Lemma main_outcome_ignores_concurrency_witness :
  option_map records
    (main (lxml := Examples.toy_lxml) MoreExamples.toy_int
       Examples.chain_source Examples.nobody ["harvest"; "16"] 3) =
  option_map records
    (main (lxml := Examples.toy_lxml) MoreExamples.toy_int
       Examples.chain_source MoreExamples.everybody ["harvest"; "many"] 3) /\
  option_map saved
    (main (lxml := Examples.toy_lxml) MoreExamples.toy_int
       Examples.chain_source Examples.nobody ["harvest"; "16"] 3) =
  option_map saved
    (main (lxml := Examples.toy_lxml) MoreExamples.toy_int
       Examples.chain_source MoreExamples.everybody ["harvest"; "many"] 3).
Proof.
  apply (main_outcome_ignores_concurrency (lxml := Examples.toy_lxml)
           MoreExamples.toy_int Examples.chain_source Examples.nobody
           MoreExamples.everybody ["harvest"; "16"] ["harvest"; "many"] 3).
  - vm_compute. discriminate.
  - vm_compute. discriminate.
Defined.

(** X14.  A concurrency argument of zero or less is passed on unchecked,
    and the run then never ends once the first batch carries a resumption
    token: no task is ever started and the outer loop spins. *)
Theorem main_hangs_on_nonpositive_concurrency {lxml : Lxml}
    (py_int : string -> option Z)
    (session : nat -> option token -> nat -> result response)
    (finished : nat -> task -> bool) (argv : list string)
    (xml : string) (first : list record_data) (t : token) :
  concurrency_of py_int argv <= 0 ->
  fetch session 0 None = Some xml ->
  truthy_str xml = true ->
  extract_records_value xml = (first, Some t) ->
  truthy_str t = true ->
  forall fuel, main py_int session finished argv fuel = None.
Proof.
  intros Hc Hf Hx He Ht fuel. unfold main, harvest_records_async, harvest_run.
  destruct (HarvestFacts.first_batch_served session xml first _ Hf Hx He)
    as (st0 & H0 & _ & Hq & Ht0 & _).
  rewrite H0.
  rewrite (HarvestFacts.harvest_loop_stalls (concurrency_of py_int argv)
             session finished Hc fuel st0 Ht0); [reflexivity|].
  rewrite Hq. simpl. rewrite Ht. discriminate.
Qed.

Lemma main_hangs_on_nonpositive_concurrency_witness :
  main (lxml := Examples.toy_lxml) MoreExamples.toy_int
    Examples.chain_source Examples.nobody ["harvest"; "0"] 1000 = None.
Proof.
  apply (main_hangs_on_nonpositive_concurrency (lxml := Examples.toy_lxml)
           MoreExamples.toy_int Examples.chain_source Examples.nobody
           ["harvest"; "0"] "b0"
           [Examples.rec_of "r0"; Examples.rec_of "r1"] "t1").
  - vm_compute. discriminate.
  - reflexivity.
  - reflexivity.
  - reflexivity.
  - reflexivity.
Defined.

(** X15.  When the first batch cannot be fetched, or comes back empty, the
    run ends at once with no record and [save_to_csv] is not called,
    whatever the command line says. *)
Theorem main_saves_nothing_without_first_batch {lxml : Lxml}
    (py_int : string -> option Z)
    (session : nat -> option token -> nat -> result response)
    (finished : nat -> task -> bool) (argv : list string) (fuel : nat) :
  truthy (fetch session 0 None) = false ->
  main py_int session finished argv fuel =
    Some (mkOutcome (concurrency_of py_int argv) [] None).
Proof.
  intros Hf. unfold main, harvest_records_async, harvest_run, first_batch.
  now rewrite Hf.
Qed.

Lemma main_saves_nothing_without_first_batch_witness :
  main (lxml := Examples.toy_lxml) MoreExamples.toy_int
    MoreExamples.silent_source Examples.nobody ["harvest"; "0"] 0 =
  Some (mkOutcome 0 [] None).
Proof.
  apply (main_saves_nothing_without_first_batch (lxml := Examples.toy_lxml)
           MoreExamples.toy_int MoreExamples.silent_source Examples.nobody
           ["harvest"; "0"] 0).
  reflexivity.
Defined.

End CliFacts.

(** ** More on the paginated scraper *)

Module ScrapeMore.
Import Scrape.

Lemma int_digits_nonneg (s : string) :
  forall acc n, 0 <= acc -> int_digits acc s = Some n -> 0 <= n.
Proof.
  induction s as [|c s IH]; intros acc n Hacc; cbn [int_digits].
  - now intros [= <-].
  - destruct ((48 <=? Z.of_nat (Ascii.nat_of_ascii c)) &&
              (Z.of_nat (Ascii.nat_of_ascii c) <=? 57)) eqn:E; [|discriminate].
    apply andb_true_iff in E as [E1 E2].
    apply Z.leb_le in E1. apply IH. lia.
Qed.

Lemma int_nonneg (s : string) (n : Z) : int s = Some n -> 0 <= n.
Proof.
  unfold int. destruct s; [discriminate|].
  apply int_digits_nonneg. lia.
Qed.

Lemma fold_left_max_spec (l : list Z) :
  forall init,
    In (fold_left Z.max l init) (init :: l) /\
    forall x, In x (init :: l) -> x <= fold_left Z.max l init.
Proof.
  induction l as [|a l IH]; intros init; simpl.
  - split; [now left|]. intros x [<-|[]]. lia.
  - destruct (IH (Z.max init a)) as [Hin Hle]. split.
    + destruct Hin as [Hm|Hin]; [|now right; right].
      rewrite <- Hm. destruct (Z.max_spec init a) as [[_ ->]|[_ ->]];
        [right; now left | now left].
    + intros x [Hx|[Hx|Hx]].
      * specialize (Hle (Z.max init a) (or_introl eq_refl)). lia.
      * specialize (Hle (Z.max init a) (or_introl eq_refl)). lia.
      * apply Hle. now right.
Qed.

Lemma NoDup_map_of_nat (l : list nat) : NoDup l -> NoDup (map Z.of_nat l).
Proof.
  induction 1 as [|a l Hnot Hnd IH]; simpl; constructor; [|exact IH].
  rewrite in_map_iff. intros (y & Hy & Hin).
  apply Nat2Z.inj in Hy. now subst y.
Qed.

Lemma NoDup_pages_to_scrape (total_pages : Z) :
  NoDup (pages_to_scrape total_pages).
Proof. apply NoDup_map_of_nat, seq_NoDup. Qed.

Lemma length_concat_map_but_one {A B} (f : A -> list B) (M : nat) (k : A) :
  forall l : list A,
    NoDup l -> In k l ->
    f k = [] ->
    (forall x, In x l -> x <> k -> List.length (f x) = M) ->
    List.length (List.concat (map f l)) = ((List.length l - 1) * M)%nat.
Proof.
  induction l as [|a l IH]; intros Hnd Hin Hk Hothers; [contradiction|].
  inversion Hnd as [|? ? Hnot Hnd']; subst. simpl.
  rewrite length_app. destruct Hin as [->|Hin].
  - rewrite Hk. simpl.
    rewrite (ScrapeFacts.length_concat_map f M l); [lia|].
    intros x Hx. apply Hothers; [now right|]. intros ->. contradiction.
  - rewrite (Hothers a (or_introl eq_refl)) by (intros ->; contradiction).
    rewrite IH; auto.
    + destruct l; [contradiction|]. simpl. lia.
    + intros x Hx. apply Hothers. now right.
Qed.

Lemma Permutation_concat_map {A B} (f : A -> list B) (l l' : list A) :
  Permutation l l' ->
  Permutation (List.concat (map f l)) (List.concat (map f l')).
Proof.
  intros H. rewrite <- !flat_map_concat_map.
  now apply Permutation_flat_map.
Qed.

Section Facts.
Context {bs4 : Bs4}.
Variable requests_get : request -> result http_response.

Lemma page_numbers_nonneg (pager_ul : tag) (n : Z) :
  In n (page_numbers_of pager_ul) -> 0 <= n.
Proof.
  unfold page_numbers_of. rewrite in_flat_map. intros (link & _ & Hn).
  destruct (get "href" link) as [href|]; [|contradiction].
  destruct (truthy_str href); [|contradiction].
  destruct (re_search "[?&]page=(\d+)" href) as [digits|]; [|contradiction].
  destruct (int digits) as [m|] eqn:E; [|contradiction].
  destruct Hn as [<-|[]]. exact (int_nonneg _ _ E).
Qed.

(** What a run that reached the scraping phase ended with. *)
Lemma outcome_scraped (page_time : Z -> Q) (completes : nat -> nat)
    (st : state) :
  outcome (main requests_get page_time completes) = Some st ->
  0 < get_total_pages requests_get /\
  all_publications_data st =
    List.concat
      (map (page_data requests_get)
         (as_completed completes
            (pages_to_scrape (get_total_pages requests_get)))) /\
  completed_pages st = get_total_pages requests_get /\
  pbar_n st = get_total_pages requests_get /\
  unhandled st = [].
Proof.
  intros H.
  destruct (Z.lt_ge_cases 0 (get_total_pages requests_get)) as [Hpos|Hle].
  - destruct (ScrapeFacts.main_scrapes requests_get page_time completes _
                eq_refl Hpos) as (st' & Hm & Ha & Hc & Hp & Hu).
    rewrite Hm in H. simpl in H. injection H as <-. auto.
  - unfold main in H.
    replace (get_total_pages requests_get <=? 0) with true in H
      by (symmetry; apply Z.leb_le; lia).
    discriminate.
Qed.

End Facts.

(** X16.  The scrape does not depend on the order in which the page
    futures complete, nor on how long each took: two runs against the same
    site collect the same records, up to their order, and end with the
    same counters. *)
Theorem scrape_ignores_completion_order {bs4 : Bs4}
    (requests_get : request -> result http_response)
    (time1 time2 : Z -> Q) (order1 order2 : nat -> nat) (st1 st2 : state) :
  outcome (main requests_get time1 order1) = Some st1 ->
  outcome (main requests_get time2 order2) = Some st2 ->
  Permutation (all_publications_data st1) (all_publications_data st2) /\
  completed_pages st1 = completed_pages st2 /\
  pbar_n st1 = pbar_n st2.
Proof.
  intros H1 H2.
  destruct (outcome_scraped requests_get time1 order1 st1 H1)
    as (_ & Ha1 & Hc1 & Hp1 & _).
  destruct (outcome_scraped requests_get time2 order2 st2 H2)
    as (_ & Ha2 & Hc2 & Hp2 & _).
  rewrite Ha1, Ha2, Hc1, Hc2, Hp1, Hp2. split; [|auto].
  apply Permutation_concat_map.
  eapply perm_trans; [apply ScrapeFacts.as_completed_perm|].
  apply Permutation_sym, ScrapeFacts.as_completed_perm.
Qed.

Lemma scrape_ignores_completion_order_witness :
  exists st1 st2,
    outcome (main (bs4 := Examples.toy_bs4) Examples.site_flaky
               Examples.millisecond Examples.last_first) = Some st1 /\
    outcome (main (bs4 := Examples.toy_bs4) Examples.site_flaky
               Examples.millisecond MoreExamples.first_first) = Some st2 /\
    Permutation (all_publications_data st1) (all_publications_data st2) /\
    completed_pages st1 = completed_pages st2 /\
    pbar_n st1 = pbar_n st2.
Proof.
  eexists. eexists.
  split; [vm_compute; reflexivity|].
  split; [vm_compute; reflexivity|].
  apply (scrape_ignores_completion_order (bs4 := Examples.toy_bs4)
           Examples.site_flaky Examples.millisecond Examples.millisecond
           Examples.last_first MoreExamples.first_first);
    vm_compute; reflexivity.
Defined.

(** X17.  One page that cannot be fetched does not stop the run and is not
    told apart in its counters: with [P] pages of [M] records each, one of
    which fails, the run ends with [(P - 1) * M] records while
    [completed_pages] and the progress bar both stand at [P]. *)
Theorem one_failed_page_is_counted_as_completed {bs4 : Bs4}
    (requests_get : request -> result http_response)
    (page_time : Z -> Q) (completes : nat -> nat)
    (P k : Z) (M : nat) (e : exn) :
  get_total_pages requests_get = P ->
  1 <= k <= P ->
  requests_get (Page k) = Raise e ->
  (forall n, 1 <= n <= P -> n <> k ->
     exists response data,
       requests_get (Page n) = Ret response /\
       raise_for_status response = Ret tt /\
       extract_publication_data (text response) = Ret data /\
       List.length data = M) ->
  exists st,
    outcome (main requests_get page_time completes) = Some st /\
    Z.of_nat (List.length (all_publications_data st)) = (P - 1) * Z.of_nat M /\
    completed_pages st = P /\
    pbar_n st = P /\
    unhandled st = [].
Proof.
  intros Hg Hk Hfail Hothers.
  destruct (ScrapeFacts.main_scrapes requests_get page_time completes P Hg)
    as (st & Hm & Ha & Hc & Hp & Hu); [lia|].
  exists st. rewrite Hm. simpl. repeat split; auto.
  rewrite Ha.
  rewrite (Permutation_length
             (Permutation_concat_map (page_data requests_get) _ _
                (ScrapeFacts.as_completed_perm completes
                   (pages_to_scrape P)))).
  rewrite (length_concat_map_but_one (page_data requests_get) M k).
  - rewrite ScrapeFacts.length_pages_to_scrape.
    rewrite Nat2Z.inj_mul, Nat2Z.inj_sub by lia.
    rewrite Z2Nat.id by lia. reflexivity.
  - apply NoDup_pages_to_scrape.
  - now apply ScrapeFacts.In_pages_to_scrape.
  - unfold page_data, fetch_and_parse_page. rewrite Hfail. simpl.
    destruct (is_requests_timeout e), (is_request_exception e); reflexivity.
  - intros n Hin Hne. apply ScrapeFacts.In_pages_to_scrape in Hin.
    destruct (Hothers n Hin Hne) as (response & data & Hr & Hs & He & Hl).
    unfold page_data, fetch_and_parse_page. rewrite Hr. simpl.
    rewrite Hs. simpl. rewrite He. simpl. exact Hl.
Qed.

(** A site of three pages where page 2 times out. *)
Lemma one_failed_page_is_counted_as_completed_witness :
  exists st,
    outcome (main (bs4 := Examples.toy_bs4)
               (fun r => match r with
                         | Page 2 => Raise RequestsTimeout
                         | _ => Examples.site r
                         end)
               Examples.millisecond Examples.last_first) = Some st /\
    Z.of_nat (List.length (all_publications_data st)) = (3 - 1) * Z.of_nat 2 /\
    completed_pages st = 3 /\
    pbar_n st = 3 /\
    unhandled st = [].
Proof.
  apply (one_failed_page_is_counted_as_completed (bs4 := Examples.toy_bs4)
           (fun r => match r with
                     | Page 2 => Raise RequestsTimeout
                     | _ => Examples.site r
                     end)
           Examples.millisecond Examples.last_first 3 2 2 RequestsTimeout).
  - reflexivity.
  - lia.
  - reflexivity.
  - intros n Hn Hne. exists (mkHttp 200 "two rows"). eexists.
    assert (Hcase : n = 1 \/ n = 3) by lia.
    destruct Hcase as [-> | ->]; repeat split; reflexivity.
Defined.


(** X19.  [get_total_pages] is never negative, so the test
    [total_pages <= 0] of the script stops the run exactly when it
    returned 0. *)
Theorem get_total_pages_nonnegative {bs4 : Bs4}
    (requests_get : request -> result http_response) :
  0 <= get_total_pages requests_get.
Proof.
  unfold get_total_pages, get_total_pages_try.
  destruct (requests_get Probe) as [response|e]; simpl;
    [|destruct (is_request_exception e); lia].
  destruct (raise_for_status response) as [[]|e]; simpl;
    [|destruct (is_request_exception e); lia].
  destruct (BeautifulSoup (text response)) as [soup|e]; simpl;
    [|destruct (is_request_exception e); lia].
  destruct (select_one "ul.pager" soup) as [pager_ul|]; [|lia].
  destruct (page_numbers_of pager_ul) as [|n ns] eqn:E; [lia|].
  destruct (fold_left_max_spec ns n) as [_ Hle].
  specialize (Hle n (or_introl eq_refl)).
  assert (0 <= n) by (apply (page_numbers_nonneg pager_ul); rewrite E;
                      now left).
  lia.
Qed.

(** X20.  When it returns, [extract_publication_data] yields exactly one
    item for each result row of the page. *)
Theorem extract_publication_data_one_item_per_row {bs4 : Bs4}
    (html_content : string) (soup : tag) (items : list item_data) :
  BeautifulSoup html_content = Ret soup ->
  extract_publication_data html_content = Ret items ->
  List.length items =
  List.length (select "div.ubl-resultrow.islandora-solr-search-result" soup).
Proof.
  intros Hb. unfold extract_publication_data. rewrite Hb. simpl.
  destruct (select "div.ubl-resultrow.islandora-solr-search-result" soup)
    as [|r rs] eqn:E.
  - now intros [= <-].
  - intros H. now rewrite (ExtractMore.mapM_length _ _ _ H).
Qed.

Lemma extract_publication_data_one_item_per_row_witness :
  List.length
    (page_data (bs4 := Examples.toy_bs4) Examples.site 1) = 2%nat.
Proof.
  change 2%nat with
    (List.length
       (select (Bs4 := Examples.toy_bs4)
          "div.ubl-resultrow.islandora-solr-search-result"
          (Examples.Soup 2 []))).
  apply (extract_publication_data_one_item_per_row
           (bs4 := Examples.toy_bs4) "two rows" (Examples.Soup 2 [])
           (page_data (bs4 := Examples.toy_bs4) Examples.site 1));
    reflexivity.
Defined.


End ScrapeMore.
